(** * Notes client: a shallow embedding of the HTTP adapter and the view
    controllers, with the properties the specification states about them.

    Sources embedded here:
    - [services/api.ts] (the second half of [src/components/NoteForm.tsx]
      as the sources are laid out): [getApiBaseURL], the request and
      response interceptors of the axios instance, the facade;
    - [pages/Notes.tsx] ([unnamed/part_000]): [loadNotes],
      [handleCreateNote], [handleDeleteNote], [handleSummarize], the
      summarize button;
    - [src/pages/Login.tsx]: the search-parameter effect, [handleSubmit],
      the mode toggle, the two banners;
    - [src/components/NoteForm.tsx]: [handleSubmit], [handleImageUpload].

    JavaScript strings are sequences of UTF-16 code units, so they are
    lists of [N] here; numbers that the code only compares ([id], HTTP
    status) are [Z]. *)

From stdpp Require Import base option list gmap strings.

(* ================================================================= *)
(** ** JavaScript strings *)

Abbreviation jsstring := (list N).

(** A literal of the source, code unit by code unit (the literals of the
    sources embedded here are ASCII). *)
Definition lit (s : string) : jsstring :=
  (fun a => Ascii.N_of_ascii a) <$> String.list_ascii_of_string s.

(** [Boolean(s)] for a string: the empty string is the only falsy one. *)
Definition truthy (s : jsstring) : bool :=
  match s with [] => false | _ :: _ => true end.

(** [a || b] on an optional string: [undefined] and [''] fall through. *)
Definition or_else (a : option jsstring) (b : jsstring) : jsstring :=
  match a with
  | Some s => if truthy s then s else b
  | None => b
  end.

(** ECMAScript [WhiteSpace] and [LineTerminator] code points, the set
    [String.prototype.trim] strips. *)
Definition is_trim_unit (c : N) : bool :=
  ((c =? 9) || (c =? 10) || (c =? 11) || (c =? 12) || (c =? 13)
   || (c =? 32) || (c =? 160) || (c =? 5760)
   || ((8192 <=? c) && (c <=? 8202))
   || (c =? 8232) || (c =? 8233) || (c =? 8239) || (c =? 8287)
   || (c =? 12288) || (c =? 65279))%N.

Fixpoint trimStart (s : jsstring) : jsstring :=
  match s with
  | [] => []
  | c :: s' => if is_trim_unit c then trimStart s' else s
  end.

Definition trimEnd (s : jsstring) : jsstring :=
  reverse (trimStart (reverse s)).

Definition trim (s : jsstring) : jsstring := trimEnd (trimStart s).

(** [s.startsWith(p)] *)
Fixpoint startsWith (p s : jsstring) : bool :=
  match p, s with
  | [], _ => true
  | _ :: _, [] => false
  | a :: p', b :: s' => (a =? b)%N && startsWith p' s'
  end.

(** [s.includes(p)] *)
Fixpoint includes (p s : jsstring) : bool :=
  startsWith p s ||
  match s with
  | [] => false
  | _ :: s' => includes p s'
  end.

(** [s.replace(/\/$/, '')]: one trailing slash (code unit 47) is dropped. *)
Definition strip_trailing_slash (s : jsstring) : jsstring :=
  match reverse s with
  | c :: r => if (c =? 47)%N then reverse r else s
  | [] => s
  end.

(* ================================================================= *)
(** ** services/api.ts: base-URL resolution *)

(** The part of [import.meta.env] the module reads. *)
Record ImportMetaEnv := {
  VITE_API_URL : option jsstring;
  PROD : bool;
  DEV : bool;
}.

(** The override as the code compares and returns it:
    [apiUrl.trim().replace(/\/$/, '')]. *)
Definition normalise_override (apiUrl : jsstring) : jsstring :=
  strip_trailing_slash (trim apiUrl).

Definition is_absolute_http (u : jsstring) : bool :=
  startsWith (lit "http://") u || startsWith (lit "https://") u.

Definition is_root_relative (u : jsstring) : bool :=
  startsWith (lit "/") u.

Definition getApiBaseURL (env : ImportMetaEnv) : jsstring :=
  match VITE_API_URL env with
  | Some apiUrl =>
      if truthy apiUrl && truthy (trim apiUrl) then
        let trimmed := strip_trailing_slash (trim apiUrl) in
        if PROD env && includes (lit "localhost") trimmed then
          lit "/api"
        else if startsWith (lit "http://") trimmed
                || startsWith (lit "https://") trimmed
                || startsWith (lit "/") trimmed then
          trimmed
        else lit "/api"
      else lit "/api"
  | None => lit "/api"
  end.


(* ================================================================= *)
(** ** services/api.ts: data model *)

Module User.
Record t := mk { id : jsstring; email : jsstring }.
End User.

Module Note.
Record t := mk {
  id : Z;
  title : jsstring;
  content : jsstring;
  image_url : option jsstring;
  summary : option jsstring;
  user_id : jsstring;
  created_at : jsstring;
  updated_at : jsstring;
}.

Definition with_summary (s : option jsstring) (n : t) : t :=
  mk (id n) (title n) (content n) (image_url n) s
     (user_id n) (created_at n) (updated_at n).
End Note.

Module NoteCreate.
Record t := mk {
  title : jsstring;
  content : jsstring;
  image_url : option jsstring;
}.
End NoteCreate.

(** [TokenResponse], with the two fields [Login.tsx] reads through
    [(response as any)]: [requires_confirmation] (its truthiness) and
    [message]. *)
Module TokenResponse.
Record t := mk {
  access_token : jsstring;
  token_type : jsstring;
  user : User.t;
  requires_confirmation : bool;
  message : option jsstring;
}.
End TokenResponse.

(** What the handlers read of a rejected axios call:
    [error.response?.status], [error.response?.data?.detail] and
    [error.message]. The [detail] is covered where it is a string or is
    not there; an answer whose [detail] is another JSON value (an array,
    an object) is outside this type. *)
Module AxiosError.
Record response_t := mk_response { status : Z; detail : option jsstring }.
Record t := mk { response : option response_t; message : jsstring }.

(** [error.response?.status] *)
Definition status_of (e : t) : option Z := status <$> response e.
(** [error.response?.data?.detail] *)
Definition detail_of (e : t) : option jsstring := response e ≫= detail.
(** [error.response?.status === 401] *)
Definition is_401 (e : t) : bool :=
  match status_of e with Some s => (s =? 401)%Z | None => false end.
End AxiosError.

(** How an awaited promise settles. *)
Inductive Settled (A : Type) : Type :=
  | Fulfilled (a : A)
  | Rejected (e : AxiosError.t).
Arguments Fulfilled {A} a.
Arguments Rejected {A} e.

(* ================================================================= *)
(** ** The browser, and handlers as state transformers *)

Inductive Endpoint :=
  | POST_auth_register
  | POST_auth_login
  | GET_notes
  | GET_note (id : Z)
  | POST_notes
  | PUT_note (id : Z)
  | DELETE_note (id : Z)
  | POST_note_summarize (id : Z)
  | POST_upload_image.

(** A request as it leaves the request interceptor. *)
Record Request := {
  endpoint : Endpoint;
  headers : gmap jsstring jsstring;
}.

(** Everything outside a component's own state that the code touches:
    [localStorage], the current location ([window.location.href] and
    the router's [navigate] both write it), the [alert] dialogs shown so
    far and the requests sent so far (both oldest first), and the session
    the auth context holds in memory. *)
Record World := {
  localStorage : gmap jsstring jsstring;
  location : jsstring;
  alerts : list jsstring;
  requests : list Request;
  session : option (jsstring * User.t);
}.

Definition set_localStorage (f : gmap jsstring jsstring → gmap jsstring jsstring)
    (w : World) : World :=
  {| localStorage := f (localStorage w); location := location w;
     alerts := alerts w; requests := requests w; session := session w |}.

Definition set_location (href : jsstring) (w : World) : World :=
  {| localStorage := localStorage w; location := href;
     alerts := alerts w; requests := requests w; session := session w |}.

Definition push_alert (msg : jsstring) (w : World) : World :=
  {| localStorage := localStorage w; location := location w;
     alerts := alerts w ++ [msg]; requests := requests w;
     session := session w |}.

Definition push_request (r : Request) (w : World) : World :=
  {| localStorage := localStorage w; location := location w;
     alerts := alerts w; requests := requests w ++ [r];
     session := session w |}.

Definition set_session (u : option (jsstring * User.t)) (w : World) : World :=
  {| localStorage := localStorage w; location := location w;
     alerts := alerts w; requests := requests w; session := u |}.

(** A handler over a component state [S]: it reads and writes that state
    and the world, and returns a value. *)
Definition M (S A : Type) : Type := S → World → A * S * World.

Definition ret {S A} (a : A) : M S A := fun s w => (a, s, w).

Definition bind {S A B} (m : M S A) (k : A → M S B) : M S B :=
  fun s w => let '(a, s', w') := m s w in k a s' w'.

Declare Scope handler_scope.
Delimit Scope handler_scope with handler.
Notation "x <- c ;; k" := (bind c (fun x => k))
  (at level 100, c at next level, right associativity) : handler_scope.
Notation "c ;; k" := (bind c (fun _ => k))
  (at level 100, right associativity) : handler_scope.
Local Open Scope handler_scope.

(** A [setX(v)] call of a [useState] pair. *)
Definition set_state {S} (f : S → S) : M S unit := fun s w => (tt, f s, w).

(** An effect on the world only. *)
Definition effect {S} (f : World → World) : M S unit := fun s w => (tt, s, f w).

Definition read_world {S A} (f : World → A) : M S A := fun s w => (f w, s, w).

(** [if (c) { m }] *)
Definition when {S} (c : bool) (m : M S unit) : M S unit :=
  if c then m else ret tt.

Definition alert {S} (msg : jsstring) : M S unit := effect (push_alert msg).

Definition final_state {S A} (r : A * S * World) : S := snd (fst r).
Definition final_world {S A} (r : A * S * World) : World := snd r.
Definition result {S A} (r : A * S * World) : A := fst (fst r).

(* ================================================================= *)
(** ** services/api.ts: the axios instance and the facade *)

Module Api.

(** [axios.create({ headers: { 'Content-Type': 'application/json' } })] *)
Definition default_headers : gmap jsstring jsstring :=
  {[ lit "Content-Type" := lit "application/json" ]}.

(** Request interceptor: [const token = localStorage.getItem('token');
    if (token) config.headers.Authorization = `Bearer ${token}`]. *)
Definition request_interceptor (storage : gmap jsstring jsstring)
    (config_headers : gmap jsstring jsstring) : gmap jsstring jsstring :=
  match storage !! lit "token" with
  | Some token =>
      if truthy token
      then <[ lit "Authorization" := lit "Bearer " ++ token ]> config_headers
      else config_headers
  | None => config_headers
  end.

(** Response interceptor, error side: on status 401 both storage keys
    are removed and [window.location.href] is set; the error is
    rejected again in every case (that is [receive] below). *)
Definition response_error_interceptor (error : AxiosError.t) (w : World) : World :=
  if AxiosError.is_401 error then
    set_location (lit "/login")
      (set_localStorage (delete (lit "user"))
        (set_localStorage (delete (lit "token")) w))
  else w.

(** The request leaves through the request interceptor. Headers given
    with the call override the instance's defaults. *)
Definition send {S : Type} (ep : Endpoint) (call_headers : gmap jsstring jsstring)
    : M S unit :=
  storage <- read_world localStorage ;;
  effect (push_request
    {| endpoint := ep;
       headers := request_interceptor storage (call_headers ∪ default_headers) |}).

(** The answer comes back through the response interceptor: [wire] is
    how the transport settled (axios rejects every non-2xx status). *)
Definition receive {S A : Type} (wire : Settled A) : M S (Settled A) :=
  match wire with
  | Fulfilled a => ret (Fulfilled a)
  | Rejected error =>
      effect (response_error_interceptor error) ;;
      ret (Rejected error)
  end.

Definition request {S A : Type} (ep : Endpoint) (call_headers : gmap jsstring jsstring)
    (wire : Settled A) : M S (Settled A) :=
  send ep call_headers ;; receive wire.

(** [authAPI] *)
Definition register {S : Type} (email password : jsstring)
    (wire : Settled TokenResponse.t) : M S (Settled TokenResponse.t) :=
  request POST_auth_register ∅ wire.

Definition login {S : Type} (email password : jsstring)
    (wire : Settled TokenResponse.t) : M S (Settled TokenResponse.t) :=
  request POST_auth_login ∅ wire.

(** [notesAPI] *)
Definition getAll {S : Type} (wire : Settled (list Note.t)) : M S (Settled (list Note.t)) :=
  request GET_notes ∅ wire.

Definition getOne {S : Type} (id : Z) (wire : Settled Note.t) : M S (Settled Note.t) :=
  request (GET_note id) ∅ wire.

Definition create {S : Type} (note : NoteCreate.t) (wire : Settled Note.t)
    : M S (Settled Note.t) :=
  request POST_notes ∅ wire.

Definition update {S : Type} (id : Z) (note : NoteCreate.t) (wire : Settled Note.t)
    : M S (Settled Note.t) :=
  request (PUT_note id) ∅ wire.

Definition delete {S : Type} (id : Z) (wire : Settled unit) : M S (Settled unit) :=
  request (DELETE_note id) ∅ wire.

Definition summarize {S : Type} (id : Z) (wire : Settled Note.t) : M S (Settled Note.t) :=
  request (POST_note_summarize id) ∅ wire.

(** [uploadAPI.uploadImage]; the answer's [url] is what the caller reads. *)
Definition uploadImage {S : Type} (wire : Settled jsstring) : M S (Settled jsstring) :=
  request POST_upload_image
    {[ lit "Content-Type" := lit "multipart/form-data" ]} wire.

End Api.

(* ================================================================= *)
(** ** context/AuthContext and the router, as the pages use them *)

Module AuthContext.

(** Modelled from the spec: [context/AuthContext] is not among the
    sources. Section 4.2: [login(token, user)] persists both and marks
    the session authenticated; [logout()] clears persisted state and
    marks unauthenticated. [encode] stands for the unknown
    serialisation of the user record. *)
Definition login (encode : User.t → jsstring) (token : jsstring) (user : User.t)
    (w : World) : World :=
  set_session (Some (token, user))
    (set_localStorage (insert (lit "user") (encode user))
      (set_localStorage (insert (lit "token") token) w)).

Definition logout (w : World) : World :=
  set_session None
    (set_localStorage (delete (lit "user"))
      (set_localStorage (delete (lit "token")) w)).

Definition isAuthenticated (w : World) : bool :=
  match session w with Some _ => true | None => false end.

End AuthContext.

(** [useNavigate()]: the router moves to the given path. *)
Definition navigate {S : Type} (path : jsstring) : M S unit := effect (set_location path).

(* ================================================================= *)
(** ** pages/Notes.tsx *)

Module Notes.

Record State := {
  notes : list Note.t;
  loading : bool;
  showForm : bool;
  selectedNote : option Note.t;
  summarizing : option Z;
}.

(** [useState] initial values. *)
Definition initial : State :=
  {| notes := []; loading := true; showForm := false;
     selectedNote := None; summarizing := None |}.

Definition setNotes (v : list Note.t) : M State unit :=
  set_state (fun s => {| notes := v; loading := loading s; showForm := showForm s;
                         selectedNote := selectedNote s; summarizing := summarizing s |}).
Definition setLoading (v : bool) : M State unit :=
  set_state (fun s => {| notes := notes s; loading := v; showForm := showForm s;
                         selectedNote := selectedNote s; summarizing := summarizing s |}).
Definition setShowForm (v : bool) : M State unit :=
  set_state (fun s => {| notes := notes s; loading := loading s; showForm := v;
                         selectedNote := selectedNote s; summarizing := summarizing s |}).
Definition setSelectedNote (v : option Note.t) : M State unit :=
  set_state (fun s => {| notes := notes s; loading := loading s; showForm := showForm s;
                         selectedNote := v; summarizing := summarizing s |}).
Definition setSummarizing (v : option Z) : M State unit :=
  set_state (fun s => {| notes := notes s; loading := loading s; showForm := showForm s;
                         selectedNote := selectedNote s; summarizing := v |}).

(** [selectedNote?.id === id] *)
Definition selected_is (sel : option Note.t) (id : Z) : bool :=
  match sel with Some n => (Note.id n =? id)%Z | None => false end.

Definition loadNotes (wire : Settled (list Note.t)) : M State unit :=
  setLoading true ;;
  r <- Api.getAll wire ;;
  match r with
  | Fulfilled data => setNotes data
  | Rejected error =>
      let errorMessage :=
        or_else (AxiosError.detail_of error)
          (or_else (Some (AxiosError.message error)) (lit "Failed to load notes")) in
      (* Don't show alert if it's an auth error (will be handled by interceptor) *)
      when (negb (AxiosError.is_401 error))
        (alert (lit "Failed to load notes: " ++ errorMessage))
  end ;;
  setLoading false.

(** [loadNotes()] is not awaited; it catches its own errors. *)
Definition handleCreateNote (noteData : NoteCreate.t)
    (wire : Settled Note.t) (wire_list : Settled (list Note.t))
    : M State (Settled unit) :=
  r <- Api.create noteData wire ;;
  match r with
  | Fulfilled _ =>
      setShowForm false ;;
      loadNotes wire_list
  | Rejected error =>
      alert (or_else (AxiosError.detail_of error) (lit "Failed to create note"))
  end ;;
  ret (Fulfilled tt).

(** The handlers below are closures of one render: [notes] and
    [selectedNote] in their bodies are that render's values, also
    after an [await]. *)
Section Render.
Variable rendered : State.

(** [confirmed] is what the [confirm(...)] dialog returned. *)
Definition handleDeleteNote (id : Z) (confirmed : bool)
    (wire : Settled unit) (wire_list : Settled (list Note.t))
    : M State unit :=
  if negb confirmed then ret tt
  else
    r <- Api.delete id wire ;;
    match r with
    | Fulfilled _ =>
        loadNotes wire_list ;;
        when (selected_is (selectedNote rendered) id)
          (setSelectedNote None)
    | Rejected error =>
        alert (or_else (AxiosError.detail_of error) (lit "Failed to delete note"))
    end.

(** [handleSummarize] up to its [await]: the indicator is set and the
    request leaves. *)
Definition handleSummarize_begin (noteId : Z) : M State unit :=
  setSummarizing (Some noteId) ;;
  Api.send (POST_note_summarize noteId) ∅.

(** [handleSummarize] from the moment the request settles. *)
Definition handleSummarize_settle (noteId : Z) (wire : Settled Note.t)
    : M State unit :=
  r <- Api.receive wire ;;
  match r with
  | Fulfilled updatedNote =>
      setNotes ((fun n => if (Note.id n =? noteId)%Z then updatedNote else n)
                  <$> notes rendered) ;;
      when (selected_is (selectedNote rendered) noteId)
        (setSelectedNote (Some updatedNote))
  | Rejected error =>
      alert (or_else (AxiosError.detail_of error) (lit "Failed to generate summary"))
  end ;;
  setSummarizing None.

Definition handleSummarize (noteId : Z) (wire : Settled Note.t) : M State unit :=
  handleSummarize_begin noteId ;;
  handleSummarize_settle noteId wire.

End Render.

(** A handler invoked on the current render: its closure holds the
    current state. *)
Definition on_render {A} (h : State → M State A) : M State A :=
  fun s w => h s s w.

(** The summarize button: rendered only once loading is over
    ([if (loading) return ...]) and with a selection
    ([{selectedNote && ...}]); [disabled={summarizing === selectedNote.id}]. *)
Definition summarize_button_disabled (s : State) : option bool :=
  if loading s then None
  else
    match selectedNote s with
    | Some n =>
        Some match summarizing s with
             | Some id => (id =? Note.id n)%Z
             | None => false
             end
    | None => None
    end.

(** The screen over time. An [await] parks the rest of its handler:
    [in_flight] lists the summarize requests that have left and not
    settled yet, each with the render its handler closed over and its
    [noteId]. *)
Record Screen := {
  state : State;
  world : World;
  in_flight : list (State * Z);
}.

Inductive Event :=
  | NoteClicked (note : Note.t)
  | SummarizeClicked
  | SummarizeSettled (k : nat) (wire : Settled Note.t).

(** [NoteClicked]: a card's [onClick={() => setSelectedNote(note)}];
    there are no cards while the loading screen is up.
    [SummarizeClicked]: the button's [onClick], which a disabled or
    unrendered button does not fire. [SummarizeSettled k wire]: the
    [k]-th request in flight settles as [wire]. *)
Definition step (sc : Screen) (e : Event) : Screen :=
  match e with
  | NoteClicked note =>
      if loading (state sc) then sc
      else
        let r := setSelectedNote (Some note) (state sc) (world sc) in
        {| state := final_state r; world := final_world r; in_flight := in_flight sc |}
  | SummarizeClicked =>
      match selectedNote (state sc), summarize_button_disabled (state sc) with
      | Some n, Some false =>
          let r := handleSummarize_begin (Note.id n) (state sc) (world sc) in
          {| state := final_state r; world := final_world r;
             in_flight := in_flight sc ++ [(state sc, Note.id n)] |}
      | _, _ => sc
      end
  | SummarizeSettled k wire =>
      match in_flight sc !! k with
      | Some (rendered, noteId) =>
          let r := handleSummarize_settle rendered noteId wire (state sc) (world sc) in
          {| state := final_state r; world := final_world r;
             in_flight := delete k (in_flight sc) |}
      | None => sc
      end
  end.

Definition run (sc : Screen) (events : list Event) : Screen :=
  foldl step sc events.




End Notes.

(* ================================================================= *)
(** ** pages/Login.tsx *)

Module Login.

Record State := {
  email : jsstring;
  password : jsstring;
  error : jsstring;
  success : jsstring;
  loading : bool;
  isRegister : bool;
}.

Definition initial : State :=
  {| email := []; password := []; error := []; success := [];
     loading := false; isRegister := false |}.

Definition setEmail (v : jsstring) : M State unit :=
  set_state (fun s => {| email := v; password := password s; error := error s;
                         success := success s; loading := loading s;
                         isRegister := isRegister s |}).
Definition setPassword (v : jsstring) : M State unit :=
  set_state (fun s => {| email := email s; password := v; error := error s;
                         success := success s; loading := loading s;
                         isRegister := isRegister s |}).
Definition setError (v : jsstring) : M State unit :=
  set_state (fun s => {| email := email s; password := password s; error := v;
                         success := success s; loading := loading s;
                         isRegister := isRegister s |}).
Definition setSuccess (v : jsstring) : M State unit :=
  set_state (fun s => {| email := email s; password := password s; error := error s;
                         success := v; loading := loading s;
                         isRegister := isRegister s |}).
Definition setLoading (v : bool) : M State unit :=
  set_state (fun s => {| email := email s; password := password s; error := error s;
                         success := success s; loading := v;
                         isRegister := isRegister s |}).
Definition setIsRegister (v : bool) : M State unit :=
  set_state (fun s => {| email := email s; password := password s; error := error s;
                         success := success s; loading := loading s;
                         isRegister := v |}).

(** [URLSearchParams]: the pairs in the order of the query string;
    [get] returns the first value of a name, or [null]. *)
Definition SearchParams : Type := list (jsstring * jsstring).

Fixpoint get (name : jsstring) (sp : SearchParams) : option jsstring :=
  match sp with
  | [] => None
  | (k, v) :: sp' => if bool_decide (k = name) then Some v else get name sp'
  end.

(** [x === 'true'] for the result of a [get]. *)
Definition is_true (x : option jsstring) : bool :=
  bool_decide (x = Some (lit "true")).

(** Truthiness of the result of a [get]: [null] and [''] are falsy. *)
Definition present (x : option jsstring) : bool :=
  match x with Some v => truthy v | None => false end.

(** The effect on [searchParams]. *)
Definition useEffect_searchParams (searchParams : SearchParams) : M State unit :=
  let confirmed := get (lit "confirmed") searchParams in
  let token := get (lit "token_hash") searchParams in
  let type := get (lit "type") searchParams in
  if is_true confirmed || is_true (get (lit "success") searchParams) then
    setSuccess (lit "Email confirmed successfully! You can now log in.") ;;
    setError []
  else if present (get (lit "error") searchParams) then
    setError (lit "Confirmation failed: "
              ++ default [] (get (lit "error") searchParams))
  else if present token && present type then
    setSuccess (lit "Processing email confirmation...")
  else ret tt.

Section Render.
Variable rendered : State.
(** [const { login } = useAuth()] *)
Variable login : jsstring → User.t → World → World.

Definition handleSubmit (wire : Settled TokenResponse.t) : M State unit :=
  setError [] ;;
  setLoading true ;;
  r <- (if isRegister rendered
        then Api.register (email rendered) (password rendered) wire
        else Api.login (email rendered) (password rendered) wire) ;;
  match r with
  | Fulfilled response =>
      (* Handle email confirmation case *)
      if TokenResponse.requires_confirmation response then
        setError (or_else (TokenResponse.message response)
                    (lit "Please check your email to confirm your account."))
      else
        effect (login (TokenResponse.access_token response)
                      (TokenResponse.user response)) ;;
        navigate (lit "/notes")
  | Rejected err =>
      setError (or_else (AxiosError.detail_of err)
                  (or_else (Some (AxiosError.message err))
                     (lit "An error occurred")))
  end ;;
  setLoading false.

(** The switch-mode button. *)
Definition toggle_mode : M State unit :=
  setIsRegister (negb (isRegister rendered)) ;;
  setError [].

End Render.

Definition on_render {A} (h : State → M State A) : M State A :=
  fun s w => h s s w.

(** [{error && <div className="error-message">{error}</div>}] *)
Definition error_banner (s : State) : option jsstring :=
  if truthy (error s) then Some (error s) else None.

(** [{success && <div className="success-message">{success}</div>}] *)
Definition success_banner (s : State) : option jsstring :=
  if truthy (success s) then Some (success s) else None.

(** What can happen on the screen: the router hands new search
    parameters to the effect, the form is submitted (and the request
    settles as [wire]), the mode is switched, a field is typed into. *)
Inductive Event :=
  | SearchParamsChanged (searchParams : SearchParams)
  | Submitted (wire : Settled TokenResponse.t)
  | ModeToggled
  | EmailTyped (v : jsstring)
  | PasswordTyped (v : jsstring).

Definition dispatch (login : jsstring → User.t → World → World)
    (e : Event) : M State unit :=
  match e with
  | SearchParamsChanged searchParams => useEffect_searchParams searchParams
  | Submitted wire => on_render (fun rendered => handleSubmit rendered login wire)
  | ModeToggled => on_render toggle_mode
  | EmailTyped v => setEmail v
  | PasswordTyped v => setPassword v
  end.

Fixpoint run (login : jsstring → User.t → World → World)
    (events : list Event) : M State unit :=
  match events with
  | [] => ret tt
  | e :: events' => dispatch login e ;; run login events'
  end.

(** A banner is the outcome of an event when it is on screen after the
    event and is not the banner that was there before it. *)
Definition put_up (banner : State → option jsstring) (before after : State) : Prop :=
  is_Some (banner after) ∧ banner after ≠ banner before.

End Login.

(* ================================================================= *)
(** ** components/NoteForm.tsx *)

(** [Partial<NoteCreate>], the type of the [initialData] prop. *)
Module PartialNoteCreate.
Record t := mk {
  title : option jsstring;
  content : option jsstring;
  image_url : option jsstring;
}.
End PartialNoteCreate.

Module NoteForm.

Record State := {
  title : jsstring;
  content : jsstring;
  imageUrl : jsstring;
  uploading : bool;
}.

(** [useState(initialData?.title || '')] and so on. *)
Definition initial (initialData : option PartialNoteCreate.t) : State :=
  {| title := or_else (initialData ≫= PartialNoteCreate.title) [];
     content := or_else (initialData ≫= PartialNoteCreate.content) [];
     imageUrl := or_else (initialData ≫= PartialNoteCreate.image_url) [];
     uploading := false |}.

Definition setTitle (v : jsstring) : M State unit :=
  set_state (fun s => {| title := v; content := content s;
                         imageUrl := imageUrl s; uploading := uploading s |}).
Definition setContent (v : jsstring) : M State unit :=
  set_state (fun s => {| title := title s; content := v;
                         imageUrl := imageUrl s; uploading := uploading s |}).
Definition setImageUrl (v : jsstring) : M State unit :=
  set_state (fun s => {| title := title s; content := content s;
                         imageUrl := v; uploading := uploading s |}).
Definition setUploading (v : bool) : M State unit :=
  set_state (fun s => {| title := title s; content := content s;
                         imageUrl := imageUrl s; uploading := v |}).

(** The form is mounted in a parent whose state is [P]: the form's
    handlers run on the pair, the [onSubmit] prop on the parent's part. *)
Definition in_form {P A} (m : M State A) : M (State * P) A :=
  fun '(f, p) w => let '(a, f', w') := m f w in (a, (f', p), w').

Definition in_parent {P A} (m : M P A) : M (State * P) A :=
  fun '(f, p) w => let '(a, p', w') := m p w in (a, (f, p'), w').

(** [has_file] is [e.target.files?.[0]] being there; [wire] settles to
    the [url] of the answer. *)
Definition handleImageUpload (has_file : bool) (wire : Settled jsstring)
    : M State unit :=
  if negb has_file then ret tt
  else
    setUploading true ;;
    r <- Api.uploadImage wire ;;
    match r with
    | Fulfilled url => setImageUrl url
    | Rejected error =>
        alert (or_else (AxiosError.detail_of error) (lit "Failed to upload image"))
    end ;;
    setUploading false.

Section Render.
Context {P : Type}.
Variable rendered : State.
Variable initialData : option PartialNoteCreate.t.
Variable onSubmit : NoteCreate.t → M P (Settled unit).

(** The draft handed to [onSubmit]. *)
Definition draft : NoteCreate.t :=
  {| NoteCreate.title := trim (title rendered);
     NoteCreate.content := trim (content rendered);
     NoteCreate.image_url :=
       if truthy (imageUrl rendered) then Some (imageUrl rendered) else None |}.

(** The promise of [handleSubmit] rejects when the awaited [onSubmit]
    does: the statements after the [await] are then skipped. *)
Definition handleSubmit : M (State * P) (Settled unit) :=
  if negb (truthy (trim (title rendered)))
     || negb (truthy (trim (content rendered))) then
    in_form (alert (lit "Please fill in both title and content")) ;;
    ret (Fulfilled tt)
  else
    r <- in_parent (onSubmit draft) ;;
    match r with
    | Rejected e => ret (Rejected e)
    | Fulfilled _ =>
        (* Reset form if no initial data (new note) *)
        match initialData with
        | None =>
            in_form (setTitle [] ;; setContent [] ;; setImageUrl [])
        | Some _ => ret tt
        end ;;
        ret (Fulfilled tt)
    end.

End Render.

(** As [Notes] mounts it: [<NoteForm onSubmit={handleCreateNote} .../>],
    no [initialData]. *)
Definition submit_in_Notes (wire : Settled Note.t)
    (wire_list : Settled (list Note.t)) : M (State * Notes.State) (Settled unit) :=
  fun '(f, p) w =>
    handleSubmit f None
      (fun noteData => Notes.handleCreateNote noteData wire wire_list) (f, p) w.

End NoteForm.

(* ================================================================= *)
(** ** What the screens render, and handlers split at their [await] *)

(** Truthiness of an optional string field, as in [note.summary && ...]:
    [undefined] and [''] are falsy. *)
Definition is_set (x : option jsstring) : bool :=
  match x with Some v => truthy v | None => false end.

Module NotesView.

(** The card's preview:
    [{note.content.substring(0, 100)}{note.content.length > 100 ? '...' : ''}]. *)
Definition note_preview (content : jsstring) : jsstring :=
  take 100 content ++ (if (100 <? length content)%nat then lit "..." else []).

(** [{note.image_url && <div ...>Image attached</div>}] *)
Definition image_indicator (note : Note.t) : bool := is_set (Note.image_url note).

(** [{note.summary && <div ...>Has summary</div>}] *)
Definition summary_indicator (note : Note.t) : bool := is_set (Note.summary note).

(** The text of the summarize button, where it is rendered:
    [summarizing === selectedNote.id ? 'Generating...' : selectedNote.summary
     ? 'Regenerate Summary' : 'Generate Summary']. *)
Definition summarize_button_label (s : Notes.State) : option jsstring :=
  if Notes.loading s then None
  else
    match Notes.selectedNote s with
    | Some n =>
        Some (if match Notes.summarizing s with
                 | Some id => (id =? Note.id n)%Z
                 | None => false
                 end
              then lit "Generating..."
              else if is_set (Note.summary n) then lit "Regenerate Summary"
              else lit "Generate Summary")
    | None => None
    end.

(** The summary block of the detail pane:
    [{selectedNote.summary && <div className="note-summary">...}]. *)
Definition detail_summary (s : Notes.State) : option jsstring :=
  if Notes.loading s then None
  else
    match Notes.selectedNote s with
    | Some n => if is_set (Note.summary n) then Note.summary n else None
    | None => None
    end.

End NotesView.

Module LoginView.

(** [<button type="submit" disabled={loading}>] *)
Definition submit_disabled (s : Login.State) : bool := Login.loading s.

(** [{loading ? 'Loading...' : isRegister ? 'Sign Up' : 'Sign In'}] *)
Definition submit_label (s : Login.State) : jsstring :=
  if Login.loading s then lit "Loading..."
  else if Login.isRegister s then lit "Sign Up" else lit "Sign In".

(** [handleSubmit] up to its [await]. *)
Definition handleSubmit_begin (rendered : Login.State) : M Login.State unit :=
  Login.setError [] ;;
  Login.setLoading true ;;
  Api.send (if Login.isRegister rendered then POST_auth_register else POST_auth_login) ∅.

(** [handleSubmit] from the moment the request settles. *)
Definition handleSubmit_settle (login : jsstring → User.t → World → World)
    (wire : Settled TokenResponse.t) : M Login.State unit :=
  r <- Api.receive wire ;;
  match r with
  | Fulfilled response =>
      if TokenResponse.requires_confirmation response then
        Login.setError (or_else (TokenResponse.message response)
                          (lit "Please check your email to confirm your account."))
      else
        effect (login (TokenResponse.access_token response)
                      (TokenResponse.user response)) ;;
        navigate (lit "/notes")
  | Rejected err =>
      Login.setError (or_else (AxiosError.detail_of err)
                        (or_else (Some (AxiosError.message err))
                           (lit "An error occurred")))
  end ;;
  Login.setLoading false.

End LoginView.

Module NoteFormView.

(** [<button type="button" ... disabled={uploading}>] *)
Definition upload_disabled (s : NoteForm.State) : bool := NoteForm.uploading s.

(** [{uploading ? 'Uploading...' : imageUrl ? 'Change Image' : 'Upload Image'}] *)
Definition upload_label (s : NoteForm.State) : jsstring :=
  if NoteForm.uploading s then lit "Uploading..."
  else if truthy (NoteForm.imageUrl s) then lit "Change Image"
  else lit "Upload Image".

(** [<button type="submit" disabled={loading || uploading}>], [loading]
    being the prop. *)
Definition submit_disabled (loading : bool) (s : NoteForm.State) : bool :=
  loading || NoteForm.uploading s.

(** [{imageUrl && <div className="image-preview"><img src={imageUrl} .../>}] *)
Definition image_preview (s : NoteForm.State) : option jsstring :=
  if truthy (NoteForm.imageUrl s) then Some (NoteForm.imageUrl s) else None.

(** The remove-image button: [onClick={() => setImageUrl('')}]. *)
Definition remove_image : M NoteForm.State unit := NoteForm.setImageUrl [].

(** [handleImageUpload] with a file, up to its [await]. *)
Definition handleImageUpload_begin : M NoteForm.State unit :=
  NoteForm.setUploading true ;;
  Api.send POST_upload_image {[ lit "Content-Type" := lit "multipart/form-data" ]}.

(** [handleImageUpload] from the moment the request settles. *)
Definition handleImageUpload_settle (wire : Settled jsstring) : M NoteForm.State unit :=
  r <- Api.receive wire ;;
  match r with
  | Fulfilled url => NoteForm.setImageUrl url
  | Rejected error =>
      alert (or_else (AxiosError.detail_of error) (lit "Failed to upload image"))
  end ;;
  NoteForm.setUploading false.

End NoteFormView.

(* ================================================================= *)
(** ** Sample inputs *)

Module Sample.

Definition alice : User.t :=
  {| User.id := lit "u-1"; User.email := lit "alice@example.com" |}.

(** A browser that holds a session. *)
Definition signed_in : World :=
  {| localStorage := <[ lit "user" := lit "alice" ]> {[ lit "token" := lit "abc" ]};
     location := lit "/notes"; alerts := []; requests := [];
     session := Some (lit "abc", alice) |}.

(** A browser that holds none, on the login screen. *)
Definition signed_out : World :=
  {| localStorage := ∅; location := lit "/login"; alerts := []; requests := [];
     session := None |}.

(** A rejection with the given status and no [detail]. *)
Definition failed_with (status : Z) : AxiosError.t :=
  {| AxiosError.response :=
       Some {| AxiosError.status := status; AxiosError.detail := None |};
     AxiosError.message := lit "Request failed" |}.

Definition groceries : Note.t :=
  {| Note.id := 7; Note.title := lit "Groceries"; Note.content := lit "Milk, eggs";
     Note.image_url := None; Note.summary := None; Note.user_id := lit "u-1";
     Note.created_at := lit "2024-01-01"; Note.updated_at := lit "2024-01-01" |}.

Definition chores : Note.t :=
  {| Note.id := 8; Note.title := lit "Chores"; Note.content := lit "Laundry";
     Note.image_url := None; Note.summary := None; Note.user_id := lit "u-1";
     Note.created_at := lit "2024-01-02"; Note.updated_at := lit "2024-01-02" |}.

(** The notes screen with both notes listed and the first selected. *)
Definition two_notes : Notes.State :=
  {| Notes.notes := [groceries; chores]; Notes.loading := false;
     Notes.showForm := false; Notes.selectedNote := Some groceries;
     Notes.summarizing := None |}.

(** The form as typed into, with surrounding blanks. *)
Definition typed_form : NoteForm.State :=
  {| NoteForm.title := lit " Groceries "; NoteForm.content := lit "Milk, eggs ";
     NoteForm.imageUrl := []; NoteForm.uploading := false |}.

End Sample.

(** Literals and the interceptors stay folded while handlers are run. *)
Arguments lit : simpl never.
Arguments or_else : simpl never.
Arguments trim : simpl never.
Arguments Api.default_headers : simpl never.
Arguments Api.request_interceptor : simpl never.
Arguments Api.response_error_interceptor : simpl never.

(* ================================================================= *)
(** * Properties *)

(** ** Strings *)

Lemma startsWith_prefix (p s : jsstring) :
  startsWith p s = true ↔ ∃ b, s = p ++ b.
Proof.
  revert s. induction p as [|a p IH]; intros s; simpl.
  - split; [eauto | done].
  - destruct s as [|c s].
    + split; [done | intros [b Hb]; discriminate].
    + rewrite andb_true_iff, N.eqb_eq, IH. split.
      * intros [-> [b ->]]. by exists b.
      * intros [b Hb]. injection Hb as -> ->. eauto.
Qed.

Lemma startsWith_app (p s t : jsstring) :
  startsWith p s = true → startsWith p (s ++ t) = true.
Proof.
  rewrite !startsWith_prefix. intros [b ->]. exists (b ++ t). by rewrite app_assoc.
Qed.

Lemma includes_infix (p s : jsstring) :
  includes p s = true ↔ ∃ a b, s = a ++ p ++ b.
Proof.
  induction s as [|c s IH]; simpl.
  - rewrite orb_false_r, startsWith_prefix. split.
    + intros [b Hb]. by exists [], b.
    + intros ([|??] & b & Hb); [by exists b | discriminate].
  - rewrite orb_true_iff, startsWith_prefix, IH. split.
    + intros [[b Hb] | (a & b & ->)]; [by exists [], b | by exists (c :: a), b].
    + intros ([|c' a] & b & Hb); [left; by exists b |].
      right. injection Hb as -> ->. by exists a, b.
Qed.

(** A leading unit that is not the pattern's first one cannot start a match. *)
Lemma includes_skip (c d : N) (p s : jsstring) :
  c ≠ d → includes (c :: p) (d :: s) = includes (c :: p) s.
Proof.
  intros Hne. cbn [includes startsWith].
  destruct (N.eqb_spec c d) as [->|_]; [done | reflexivity].
Qed.

Lemma includes_reverse (p s : jsstring) :
  includes (reverse p) (reverse s) = includes p s.
Proof.
  apply eq_true_iff_eq. rewrite !includes_infix. split.
  - intros (a & b & H). exists (reverse b), (reverse a).
    apply (inj reverse). by rewrite H, !reverse_app, !reverse_involutive, app_assoc.
  - intros (a & b & ->). exists (reverse b), (reverse a).
    by rewrite !reverse_app, app_assoc.
Qed.

Lemma includes_reverse_l (p s : jsstring) :
  includes (reverse p) s = includes p (reverse s).
Proof. by rewrite <- (reverse_involutive s) at 1; rewrite includes_reverse. Qed.

Lemma includes_trimStart (c : N) (p s : jsstring) :
  is_trim_unit c = false → includes (c :: p) (trimStart s) = includes (c :: p) s.
Proof.
  intros Hc. induction s as [|d s IH]; [done |].
  cbn [trimStart]. destruct (is_trim_unit d) eqn:Hd; [| done].
  rewrite IH. symmetry. apply includes_skip. congruence.
Qed.

Lemma includes_trimEnd (c : N) (p s : jsstring) :
  is_trim_unit c = false →
  includes (reverse (c :: p)) (trimEnd s) = includes (reverse (c :: p)) s.
Proof.
  intros Hc. unfold trimEnd.
  by rewrite !includes_reverse_l, reverse_involutive, includes_trimStart.
Qed.

Lemma strip_trailing_slash_cases (s : jsstring) :
  strip_trailing_slash s = s ∨ s = strip_trailing_slash s ++ [47%N].
Proof.
  unfold strip_trailing_slash. destruct (reverse s) as [|c r] eqn:Hr; [by left |].
  destruct (N.eqb_spec c 47) as [->|_]; [right | by left].
  apply (inj reverse). by rewrite Hr, reverse_app, reverse_involutive.
Qed.

Lemma includes_strip_trailing_slash (c : N) (p s : jsstring) :
  c ≠ 47%N →
  includes (reverse (c :: p)) (strip_trailing_slash s) = includes (reverse (c :: p)) s.
Proof.
  intros Hc. destruct (strip_trailing_slash_cases s) as [-> | Hs]; [done |].
  rewrite !includes_reverse_l. rewrite Hs at 2. rewrite reverse_app.
  change (reverse [47%N]) with [47%N]. cbn [app].
  by rewrite includes_skip.
Qed.

(** Trimming and dropping a trailing slash neither create nor destroy an
    occurrence of [localhost]. *)
Lemma includes_localhost_normalise (v : jsstring) :
  includes (lit "localhost") (normalise_override v) = includes (lit "localhost") v.
Proof.
  unfold normalise_override, trim.
  change (lit "localhost") with (reverse (116%N :: reverse (lit "localhos"))) at 1 2.
  rewrite includes_strip_trailing_slash by done.
  rewrite includes_trimEnd by done.
  change (reverse (116%N :: reverse (lit "localhos")))
    with (108%N :: lit "ocalhost").
  by rewrite includes_trimStart.
Qed.

Lemma startsWith_strip_trailing_slash (p s : jsstring) :
  startsWith p (strip_trailing_slash s) = true → startsWith p s = true.
Proof.
  destruct (strip_trailing_slash_cases s) as [-> | Hs]; [done |].
  intros H. rewrite Hs. by apply startsWith_app.
Qed.

Lemma truthy_nil (s : jsstring) : truthy s = false ↔ s = [].
Proof. destruct s; simpl; split; congruence. Qed.

Lemma trim_nil : trim [] = [].
Proof. reflexivity. Qed.

(* ----------------------------------------------------------------- *)
(** ** Base-URL resolution *)

Lemma getApiBaseURL_unfold (env : ImportMetaEnv) (v : jsstring) :
  VITE_API_URL env = Some v → trim v ≠ [] →
  getApiBaseURL env =
    if PROD env && includes (lit "localhost") v then lit "/api"
    else if is_absolute_http (normalise_override v)
            || is_root_relative (normalise_override v)
         then normalise_override v
         else lit "/api".
Proof.
  intros Hv Ht. unfold getApiBaseURL. rewrite Hv.
  assert (truthy v = true) as ->.
  { destruct v; [by rewrite trim_nil in Ht | done]. }
  assert (truthy (trim v) = true) as ->.
  { destruct (trim v); [done | reflexivity]. }
  cbn [andb]. fold (normalise_override v).
  rewrite includes_localhost_normalise.
  reflexivity.
Qed.

(** C6 as the specification words it fails: a set, non-blank override
    that is a root-relative path is not always preferred. For [/] the
    trailing slash is dropped before the prefix test, nothing is left to
    start with a slash, and the result is [/api]: neither the override as
    given, nor trimmed, nor normalised. *)
Lemma root_override_not_preferred_counterexample :
  ¬ (∀ (env : ImportMetaEnv) (v : jsstring),
       VITE_API_URL env = Some v → trim v ≠ [] →
       PROD env = false ∨ includes (lit "localhost") v = false →
       is_absolute_http (trim v) = true ∨ is_root_relative (trim v) = true →
       getApiBaseURL env = v
       ∨ getApiBaseURL env = trim v
       ∨ getApiBaseURL env = normalise_override v).
Proof.
  intros H.
  destruct (H {| VITE_API_URL := Some (lit "/"); PROD := false; DEV := true |}
              (lit "/") eq_refl) as [Hr | [Hr | Hr]];
    try (vm_compute in Hr; discriminate).
  - vm_compute. discriminate.
  - by left.
  - right. by vm_compute.
Qed.

(** C6, amended. The override is tested and used in its normalised form,
    trimmed and without one trailing slash. Unset or blank gives [/api];
    containing [localhost] in a production build gives [/api]; a
    normalised form that starts with none of [http://], [https://], [/]
    gives [/api] (so does every override that, trimmed, starts with none
    of them, and so do [/], [http://] and [https://] themselves); every
    other override is the result, in its normalised form. *)
Theorem getApiBaseURL_rules (env : ImportMetaEnv) :
  (VITE_API_URL env = None → getApiBaseURL env = lit "/api")
  ∧ (∀ v, VITE_API_URL env = Some v → trim v = [] →
        getApiBaseURL env = lit "/api")
  ∧ (∀ v, VITE_API_URL env = Some v → PROD env = true →
        includes (lit "localhost") v = true →
        getApiBaseURL env = lit "/api")
  ∧ (∀ v, VITE_API_URL env = Some v →
        is_absolute_http (normalise_override v) = false →
        is_root_relative (normalise_override v) = false →
        getApiBaseURL env = lit "/api")
  ∧ (∀ v, VITE_API_URL env = Some v →
        is_absolute_http (trim v) = false → is_root_relative (trim v) = false →
        getApiBaseURL env = lit "/api")
  ∧ (∀ v, VITE_API_URL env = Some v → trim v ≠ [] →
        PROD env = false ∨ includes (lit "localhost") v = false →
        is_absolute_http (normalise_override v) = true
          ∨ is_root_relative (normalise_override v) = true →
        getApiBaseURL env = normalise_override v).
Proof.
  assert (∀ v, VITE_API_URL env = Some v →
            is_absolute_http (normalise_override v) = false →
            is_root_relative (normalise_override v) = false →
            getApiBaseURL env = lit "/api") as Hinvalid.
  { intros v Hv Habs Hrel.
    destruct (decide (trim v = [])) as [Ht|Ht].
    + unfold getApiBaseURL. rewrite Hv, Ht. by rewrite andb_false_r.
    + rewrite (getApiBaseURL_unfold env v), Habs, Hrel by done.
      by destruct (PROD env && includes (lit "localhost") v). }
  split_and!.
  - intros Hv. unfold getApiBaseURL. by rewrite Hv.
  - intros v Hv Ht. unfold getApiBaseURL. rewrite Hv, Ht.
    by rewrite andb_false_r.
  - intros v Hv Hprod Hloc.
    destruct (decide (trim v = [])) as [Ht|Ht].
    + unfold getApiBaseURL. rewrite Hv, Ht. by rewrite andb_false_r.
    + by rewrite (getApiBaseURL_unfold env v), Hprod, Hloc.
  - exact Hinvalid.
  - intros v Hv Habs Hrel. apply (Hinvalid v Hv).
    + apply not_true_is_false. intros H. apply not_false_iff_true in Habs; [done |].
      unfold is_absolute_http in *. apply orb_true_iff in H as [H|H];
        apply startsWith_strip_trailing_slash in H; rewrite H; by rewrite ?orb_true_r.
    + apply not_true_is_false. intros H.
      apply startsWith_strip_trailing_slash in H.
      unfold is_root_relative in Hrel. congruence.
  - intros v Hv Ht Hok Hvalid.
    rewrite (getApiBaseURL_unfold env v) by done.
    assert (PROD env && includes (lit "localhost") v = false) as ->.
    { destruct Hok as [-> | ->]; [done | by rewrite andb_false_r]. }
    by destruct Hvalid as [-> | ->]; rewrite ?orb_true_r.
Qed.

Lemma getApiBaseURL_rules_witness :
  getApiBaseURL {| VITE_API_URL := None; PROD := true; DEV := false |} = lit "/api"
  ∧ getApiBaseURL {| VITE_API_URL := Some (lit "  "); PROD := false; DEV := true |}
    = lit "/api"
  ∧ getApiBaseURL {| VITE_API_URL := Some (lit "http://localhost:8000");
                     PROD := true; DEV := false |} = lit "/api"
  ∧ getApiBaseURL {| VITE_API_URL := Some (lit "/"); PROD := false; DEV := true |}
    = lit "/api"
  ∧ getApiBaseURL {| VITE_API_URL := Some (lit "api.example.com");
                     PROD := true; DEV := false |} = lit "/api"
  ∧ getApiBaseURL {| VITE_API_URL := Some (lit " https://api.example.com/ ");
                     PROD := true; DEV := false |} = lit "https://api.example.com".
Proof.
  split_and!.
  - destruct (getApiBaseURL_rules {| VITE_API_URL := None; PROD := true; DEV := false |})
      as (H & _). by apply H.
  - destruct (getApiBaseURL_rules
                {| VITE_API_URL := Some (lit "  "); PROD := false; DEV := true |})
      as (_ & H & _). by apply (H (lit "  ")).
  - destruct (getApiBaseURL_rules
                {| VITE_API_URL := Some (lit "http://localhost:8000");
                   PROD := true; DEV := false |})
      as (_ & _ & H & _). by apply (H (lit "http://localhost:8000")).
  - destruct (getApiBaseURL_rules
                {| VITE_API_URL := Some (lit "/"); PROD := false; DEV := true |})
      as (_ & _ & _ & H & _). by apply (H (lit "/")).
  - destruct (getApiBaseURL_rules
                {| VITE_API_URL := Some (lit "api.example.com");
                   PROD := true; DEV := false |})
      as (_ & _ & _ & _ & H & _). by apply (H (lit "api.example.com")).
  - destruct (getApiBaseURL_rules
                {| VITE_API_URL := Some (lit " https://api.example.com/ ");
                   PROD := true; DEV := false |})
      as (_ & _ & _ & _ & _ & H).
    apply (H (lit " https://api.example.com/ ")); [done | done | by right | by left].
Defined.

(* ----------------------------------------------------------------- *)
(** ** The interceptors *)

Lemma request_interceptor_token (storage config : gmap jsstring jsstring)
    (token : jsstring) :
  storage !! lit "token" = Some token → token ≠ [] →
  Api.request_interceptor storage config
    = <[ lit "Authorization" := lit "Bearer " ++ token ]> config.
Proof.
  intros Hs Ht. unfold Api.request_interceptor. rewrite Hs.
  by destruct token.
Qed.

Lemma request_interceptor_no_token (storage config : gmap jsstring jsstring) :
  storage !! lit "token" = None ∨ storage !! lit "token" = Some [] →
  Api.request_interceptor storage config = config.
Proof.
  unfold Api.request_interceptor. by intros [-> | ->].
Qed.

Lemma send_requests {S : Type} (ep : Endpoint) (call_headers : gmap jsstring jsstring)
    (s : S) (w : World) :
  Api.send ep call_headers s w =
    (tt, s, push_request
              {| endpoint := ep;
                 headers := Api.request_interceptor (localStorage w)
                              (call_headers ∪ Api.default_headers) |} w).
Proof. reflexivity. Qed.

(** C9. Every request leaves with [Authorization: Bearer <token>] when
    storage holds a token, and with exactly the headers of the call and of
    the instance (so no [Authorization] of the adapter's) when it holds none. *)
Theorem request_carries_bearer_token {S : Type} (ep : Endpoint)
    (call_headers : gmap jsstring jsstring) (s : S) (w : World) :
  ∃ req,
    requests (final_world (Api.send ep call_headers s w)) = requests w ++ [req]
    ∧ endpoint req = ep
    ∧ (∀ token, localStorage w !! lit "token" = Some token → token ≠ [] →
         headers req !! lit "Authorization" = Some (lit "Bearer " ++ token))
    ∧ (localStorage w !! lit "token" = None →
         headers req = call_headers ∪ Api.default_headers
         ∧ (call_headers !! lit "Authorization" = None →
              headers req !! lit "Authorization" = None)).
Proof.
  rewrite send_requests. eexists. split_and!; [reflexivity | reflexivity | |].
  - intros token Hs Ht. cbn [headers].
    rewrite (request_interceptor_token _ _ token) by done.
    apply lookup_insert_eq.
  - intros Hs. cbn [headers]. rewrite request_interceptor_no_token by auto.
    split; [done |]. intros Hc.
    apply lookup_union_None. split; [done |].
    unfold Api.default_headers. by apply lookup_singleton_ne.
Qed.

Lemma request_carries_bearer_token_witness :
  ∃ req,
    requests (final_world (Api.send (S := unit) GET_notes ∅ tt
      {| localStorage := {[ lit "token" := lit "abc" ]}; location := lit "/notes";
         alerts := []; requests := []; session := None |})) = [req]
    ∧ headers req !! lit "Authorization" = Some (lit "Bearer abc").
Proof.
  destruct (request_carries_bearer_token (S := unit) GET_notes ∅ tt
      {| localStorage := {[ lit "token" := lit "abc" ]}; location := lit "/notes";
         alerts := []; requests := []; session := None |})
    as (req & Hreq & _ & Htoken & _).
  exists req. split; [exact Hreq |].
  apply Htoken; [apply lookup_singleton_eq | discriminate].
Defined.

Lemma receive_rejected {S A : Type} (e : AxiosError.t) (s : S) (w : World) :
  Api.receive (A := A) (Rejected e) s w
    = (Rejected e, s, Api.response_error_interceptor e w).
Proof. reflexivity. Qed.

Lemma request_rejected {S A : Type} (ep : Endpoint) (h : gmap jsstring jsstring)
    (e : AxiosError.t) (s : S) (w : World) :
  Api.request (A := A) ep h (Rejected e) s w
    = (Rejected e, s,
       Api.response_error_interceptor e
         (push_request
            {| endpoint := ep;
               headers := Api.request_interceptor (localStorage w)
                            (h ∪ Api.default_headers) |} w)).
Proof. reflexivity. Qed.

Lemma response_error_interceptor_alerts (e : AxiosError.t) (w : World) :
  alerts (Api.response_error_interceptor e w) = alerts w.
Proof. unfold Api.response_error_interceptor. by destruct (AxiosError.is_401 e). Qed.

Lemma response_error_interceptor_requests (e : AxiosError.t) (w : World) :
  requests (Api.response_error_interceptor e w) = requests w.
Proof. unfold Api.response_error_interceptor. by destruct (AxiosError.is_401 e). Qed.

(** The adapter's part on a 401, whatever the endpoint: both keys leave
    storage, the location becomes [/login], the caller gets the rejection,
    and the adapter itself shows no dialog. *)
Lemma response_401_clears_session {S A : Type} (ep : Endpoint)
    (h : gmap jsstring jsstring) (e : AxiosError.t) (s : S) (w : World) :
  AxiosError.is_401 e = true →
  let r := Api.request (A := A) ep h (Rejected e) s w in
  result r = Rejected e
  ∧ localStorage (final_world r) !! lit "token" = None
  ∧ localStorage (final_world r) !! lit "user" = None
  ∧ location (final_world r) = lit "/login"
  ∧ alerts (final_world r) = alerts w.
Proof.
  intros He. rewrite request_rejected. unfold Api.response_error_interceptor.
  rewrite He. cbn. split_and!; try done.
  - rewrite lookup_delete_ne by done. apply lookup_delete_eq.
  - apply lookup_delete_eq.
Qed.

Lemma response_401_clears_session_witness :
  let r := Api.request (S := unit) (A := list Note.t) GET_notes ∅
             (Rejected (Sample.failed_with 401)) tt Sample.signed_in in
  localStorage (final_world r) !! lit "token" = None
  ∧ localStorage (final_world r) !! lit "user" = None
  ∧ location (final_world r) = lit "/login".
Proof.
  destruct (response_401_clears_session (S := unit) (A := list Note.t) GET_notes ∅
              (Sample.failed_with 401) tt Sample.signed_in eq_refl)
    as (_ & Htoken & Huser & Hloc & _).
  split_and!; [exact Htoken | exact Huser | exact Hloc].
Defined.

(** [loadNotes] stays silent on a 401, as its comment says. *)
Lemma loadNotes_silent_on_401 (e : AxiosError.t) (s : Notes.State) (w : World) :
  AxiosError.is_401 e = true →
  alerts (final_world (Notes.loadNotes (Rejected e) s w)) = alerts w.
Proof.
  intros He. unfold Notes.loadNotes, Api.getAll, bind, when.
  cbn. rewrite He. cbn. by rewrite response_error_interceptor_alerts.
Qed.

Lemma loadNotes_silent_on_401_witness :
  alerts (final_world (Notes.loadNotes (Rejected (Sample.failed_with 401))
                         Sample.two_notes Sample.signed_in)) = [].
Proof.
  exact (loadNotes_silent_on_401 (Sample.failed_with 401) Sample.two_notes
           Sample.signed_in eq_refl).
Defined.

(** C1 (the call sites other than [loadNotes]). On a 401 the create,
    delete, summarize and upload handlers each open an [alert] dialog on
    top of the adapter's redirect. *)
Theorem call_sites_alert_on_401 (e : AxiosError.t) (w : World) :
  AxiosError.is_401 e = true →
  (∀ s noteData wire_list,
     alerts (final_world (Notes.handleCreateNote noteData (Rejected e) wire_list s w))
       = alerts w ++ [or_else (AxiosError.detail_of e) (lit "Failed to create note")])
  ∧ (∀ s id wire_list,
     alerts (final_world
               (Notes.on_render (fun rendered =>
                  Notes.handleDeleteNote rendered id true (Rejected e) wire_list) s w))
       = alerts w ++ [or_else (AxiosError.detail_of e) (lit "Failed to delete note")])
  ∧ (∀ s noteId,
     alerts (final_world
               (Notes.on_render (fun rendered =>
                  Notes.handleSummarize rendered noteId (Rejected e)) s w))
       = alerts w ++ [or_else (AxiosError.detail_of e) (lit "Failed to generate summary")])
  ∧ (∀ s,
     alerts (final_world (NoteForm.handleImageUpload true (Rejected e) s w))
       = alerts w ++ [or_else (AxiosError.detail_of e) (lit "Failed to upload image")]).
Proof.
  intros He. split_and!; intros.
  - unfold Notes.handleCreateNote, Api.create, bind. rewrite request_rejected.
    cbn. by rewrite response_error_interceptor_alerts.
  - unfold Notes.on_render, Notes.handleDeleteNote, Api.delete, bind.
    cbn [negb]. rewrite request_rejected.
    cbn. by rewrite response_error_interceptor_alerts.
  - unfold Notes.on_render, Notes.handleSummarize, Notes.handleSummarize_begin,
      Notes.handleSummarize_settle, bind.
    cbn. by rewrite response_error_interceptor_alerts.
  - unfold NoteForm.handleImageUpload, Api.uploadImage, bind.
    cbn [negb]. cbn. by rewrite response_error_interceptor_alerts.
Qed.

Lemma call_sites_alert_on_401_witness :
  alerts (final_world
            (Notes.handleCreateNote
               {| NoteCreate.title := lit "Groceries"; NoteCreate.content := lit "Milk, eggs";
                  NoteCreate.image_url := None |}
               (Rejected (Sample.failed_with 401)) (Fulfilled [])
               Sample.two_notes Sample.signed_in))
    = [lit "Failed to create note"].
Proof.
  destruct (call_sites_alert_on_401 (Sample.failed_with 401) Sample.signed_in eq_refl)
    as (Hcreate & _).
  exact (Hcreate _ _ _).
Defined.

(* ----------------------------------------------------------------- *)
(** ** The login screen *)

Lemma or_else_truthy (a : option jsstring) (b : jsstring) :
  b ≠ [] → truthy (or_else a b) = true.
Proof.
  intros Hb. unfold or_else. destruct a as [[|c s]|]; simpl; try done;
    by destruct b.
Qed.

(** What [handleSubmit] leaves behind when the answer asks for
    confirmation: one request more, the message in [error], nothing else. *)
Lemma handleSubmit_requires_confirmation
    (login : jsstring → User.t → World → World)
    (response : TokenResponse.t) (s : Login.State) (w : World) :
  TokenResponse.requires_confirmation response = true →
  Login.on_render (fun rendered => Login.handleSubmit rendered login (Fulfilled response)) s w
  = (tt,
     {| Login.email := Login.email s; Login.password := Login.password s;
        Login.error := or_else (TokenResponse.message response)
                         (lit "Please check your email to confirm your account.");
        Login.success := Login.success s; Login.loading := false;
        Login.isRegister := Login.isRegister s |},
     push_request
       {| endpoint := if Login.isRegister s then POST_auth_register else POST_auth_login;
          headers := Api.request_interceptor (localStorage w) (∅ ∪ Api.default_headers) |}
       w).
Proof.
  intros Hc. unfold Login.on_render, Login.handleSubmit, bind.
  destruct s as [em pw er su lo []]; cbn; rewrite Hc; reflexivity.
Qed.

(** C2. A login or register answer that carries the requires-confirmation
    signal is not a success: whatever [login] of the auth context would
    do, it is not called, so storage and the session are as before; the
    location is as before; and the message is on screen as the inline
    error. *)
Theorem confirmation_required_is_not_success
    (login : jsstring → User.t → World → World)
    (response : TokenResponse.t) (s : Login.State) (w : World) :
  TokenResponse.requires_confirmation response = true →
  let r := Login.on_render
             (fun rendered => Login.handleSubmit rendered login (Fulfilled response)) s w in
  localStorage (final_world r) = localStorage w
  ∧ session (final_world r) = session w
  ∧ location (final_world r) = location w
  ∧ Login.error_banner (final_state r)
      = Some (or_else (TokenResponse.message response)
                (lit "Please check your email to confirm your account."))
  ∧ Login.loading (final_state r) = false.
Proof.
  intros Hc r. subst r. rewrite handleSubmit_requires_confirmation by done.
  split_and!; try reflexivity.
  unfold Login.error_banner, final_state. cbn [fst snd Login.error].
  by rewrite or_else_truthy.
Qed.

Lemma confirmation_required_is_not_success_witness :
  let r := Login.on_render
             (fun rendered =>
                Login.handleSubmit rendered (AuthContext.login User.email)
                  (Fulfilled
                     {| TokenResponse.access_token := lit "abc";
                        TokenResponse.token_type := lit "bearer";
                        TokenResponse.user := Sample.alice;
                        TokenResponse.requires_confirmation := true;
                        TokenResponse.message := Some (lit "Confirm your email") |}))
             Login.initial Sample.signed_out in
  localStorage (final_world r) = ∅
  ∧ session (final_world r) = None
  ∧ location (final_world r) = lit "/login"
  ∧ Login.error_banner (final_state r) = Some (lit "Confirm your email").
Proof.
  destruct (confirmation_required_is_not_success (AuthContext.login User.email)
      {| TokenResponse.access_token := lit "abc";
         TokenResponse.token_type := lit "bearer";
         TokenResponse.user := Sample.alice;
         TokenResponse.requires_confirmation := true;
         TokenResponse.message := Some (lit "Confirm your email") |}
      Login.initial Sample.signed_out eq_refl) as (H1 & H2 & H3 & H4 & _).
  split_and!; [exact H1 | exact H2 | exact H3 | exact H4].
Defined.

(** A successful answer, for comparison: the spec-modelled [login]
    stores the token and the router moves on. *)
Lemma handleSubmit_success_stores_token (encode : User.t → jsstring)
    (response : TokenResponse.t) (s : Login.State) (w : World) :
  TokenResponse.requires_confirmation response = false →
  let r := Login.on_render
             (fun rendered =>
                Login.handleSubmit rendered (AuthContext.login encode)
                  (Fulfilled response)) s w in
  localStorage (final_world r) !! lit "token" = Some (TokenResponse.access_token response)
  ∧ session (final_world r)
      = Some (TokenResponse.access_token response, TokenResponse.user response)
  ∧ location (final_world r) = lit "/notes".
Proof.
  intros Hc. unfold Login.on_render, Login.handleSubmit, bind.
  destruct s as [em pw er su lo []]; cbn; rewrite Hc; cbn;
    (split_and!; [| reflexivity | reflexivity]);
    (rewrite lookup_insert_ne by done; apply lookup_insert_eq).
Qed.

(** The effect on the search parameters touches nothing but the two
    banner texts: no request leaves, whatever the parameters are. *)
Lemma useEffect_searchParams_world (searchParams : Login.SearchParams)
    (s : Login.State) (w : World) :
  final_world (Login.useEffect_searchParams searchParams s w) = w.
Proof.
  unfold Login.useEffect_searchParams.
  repeat match goal with |- context [if ?b then _ else _] => destruct b end;
    reflexivity.
Qed.

(** The second half of C7 as the specification words it (the value, when
    the parameters carry one, is on screen in the inline error) fails:
    with [confirmed=true] also present the error is cleared instead. *)
Lemma error_param_not_rendered_counterexample :
  ¬ (∀ (searchParams : Login.SearchParams) (v : jsstring) (s : Login.State) (w : World),
       Login.get (lit "error") searchParams = Some v →
       ∃ text,
         Login.error_banner
           (final_state (Login.useEffect_searchParams searchParams s w)) = Some text
         ∧ includes v text = true).
Proof.
  intros H.
  destruct (H [(lit "confirmed", lit "true"); (lit "error", lit "expired")]
              (lit "expired") Login.initial Sample.signed_out eq_refl)
    as (text & Htext & _).
  vm_compute in Htext. discriminate.
Qed.

(** C7, amended. Parameters that indicate a completed confirmation put up
    the success banner, with no error and without a request; parameters
    that do not, and that carry a non-empty [error], put up
    [Confirmation failed: ] followed by that value as it is. *)
Theorem searchParams_banners (searchParams : Login.SearchParams)
    (s : Login.State) (w : World) :
  let r := Login.useEffect_searchParams searchParams s w in
  final_world r = w
  ∧ (Login.get (lit "confirmed") searchParams = Some (lit "true")
     ∨ Login.get (lit "success") searchParams = Some (lit "true") →
       Login.success_banner (final_state r)
         = Some (lit "Email confirmed successfully! You can now log in.")
       ∧ Login.error_banner (final_state r) = None)
  ∧ (∀ v,
       Login.get (lit "confirmed") searchParams ≠ Some (lit "true") →
       Login.get (lit "success") searchParams ≠ Some (lit "true") →
       Login.get (lit "error") searchParams = Some v → v ≠ [] →
       Login.error_banner (final_state r) = Some (lit "Confirmation failed: " ++ v)
       ∧ Login.success (final_state r) = Login.success s).
Proof.
  intros r. subst r. split; [apply useEffect_searchParams_world |].
  unfold Login.useEffect_searchParams, Login.is_true. split.
  - intros Hok.
    assert (bool_decide (Login.get (lit "confirmed") searchParams = Some (lit "true"))
            || bool_decide (Login.get (lit "success") searchParams = Some (lit "true"))
            = true) as ->.
    { apply orb_true_iff. destruct Hok; [left | right]; by apply bool_decide_eq_true. }
    done.
  - intros v Hc Hs He Hv.
    rewrite (bool_decide_eq_false_2 _ Hc), (bool_decide_eq_false_2 _ Hs), He.
    destruct v as [|c v]; [done |]. done.
Qed.

Lemma searchParams_banners_witness :
  Login.success_banner
    (final_state (Login.useEffect_searchParams [(lit "confirmed", lit "true")]
                    Login.initial Sample.signed_out))
    = Some (lit "Email confirmed successfully! You can now log in.")
  ∧ Login.error_banner
      (final_state (Login.useEffect_searchParams [(lit "error", lit "expired")]
                      Login.initial Sample.signed_out))
    = Some (lit "Confirmation failed: " ++ lit "expired").
Proof.
  split.
  - destruct (searchParams_banners [(lit "confirmed", lit "true")]
                Login.initial Sample.signed_out) as (_ & H & _).
    apply H. by left.
  - destruct (searchParams_banners [(lit "error", lit "expired")]
                Login.initial Sample.signed_out) as (_ & _ & H).
    by apply (H (lit "expired")).
Defined.

(** One event never rewrites both texts into something on screen: it
    leaves the success text alone, or leaves the error text alone, or
    leaves the error text empty. *)
Lemma dispatch_banner_texts (login : jsstring → User.t → World → World)
    (e : Login.Event) (s : Login.State) (w : World) :
  let s' := final_state (Login.dispatch login e s w) in
  Login.success s' = Login.success s
  ∨ Login.error s' = Login.error s
  ∨ Login.error s' = [].
Proof.
  destruct e as [searchParams | wire | | v | v]; cbn [Login.dispatch].
  - unfold Login.useEffect_searchParams.
    repeat match goal with |- context [if ?b then _ else _] => destruct b end;
      cbn; auto.
  - left. unfold Login.on_render, Login.handleSubmit, bind.
    destruct s as [em pw er su lo []], wire as [response | err]; cbn;
      try destruct (TokenResponse.requires_confirmation response); reflexivity.
  - by left.
  - by left.
  - by left.
Qed.

(** C8. After any sequence of events, from any state, the next event
    does not put up the inline error and the success banner together: it
    leaves the success text alone, or leaves the error text alone, or
    leaves no error; so of two banners on screen at most one is the
    outcome of that event. *)
Theorem banners_not_both_for_one_event
    (login : jsstring → User.t → World → World)
    (events : list Login.Event) (e : Login.Event) (s0 : Login.State) (w0 : World) :
  let before := Login.run login events s0 w0 in
  let after := Login.dispatch login e (final_state before) (final_world before) in
  (Login.success (final_state after) = Login.success (final_state before)
   ∨ Login.error (final_state after) = Login.error (final_state before)
   ∨ Login.error_banner (final_state after) = None)
  ∧ ¬ (Login.put_up Login.error_banner (final_state before) (final_state after)
       ∧ Login.put_up Login.success_banner (final_state before) (final_state after)).
Proof.
  intros before after.
  pose proof (dispatch_banner_texts login e (final_state before) (final_world before))
    as Htexts. fold after in Htexts. split.
  { destruct Htexts as [H | [H | H]]; [by left | right; by left | right; right].
    unfold Login.error_banner. cbv zeta in H. by rewrite H. }
  intros [[Herr Herr'] [Hsucc Hsucc']].
  destruct Htexts as [H | [H | H]].
  - apply Hsucc'. unfold Login.success_banner. by rewrite H.
  - apply Herr'. unfold Login.error_banner. by rewrite H.
  - unfold Login.error_banner in Herr. rewrite H in Herr. by destruct Herr.
Qed.

(** Banners of different events do share the screen: the success banner
    of a confirmation link stays up under the error of a failed sign-in. *)
Lemma banners_of_two_events_coexist :
  let s := final_state
             (Login.run (AuthContext.login User.email)
                [Login.SearchParamsChanged [(lit "confirmed", lit "true")];
                 Login.Submitted (Rejected (Sample.failed_with 400))]
                Login.initial Sample.signed_out) in
  Login.success_banner s = Some (lit "Email confirmed successfully! You can now log in.")
  ∧ Login.error_banner s = Some (lit "Request failed").
Proof. vm_compute. done. Qed.

(* ----------------------------------------------------------------- *)
(** ** The notes screen *)

Lemma handleSummarize_settle_fulfilled (rendered s : Notes.State) (w : World)
    (noteId : Z) (updatedNote : Note.t) :
  final_state
    (Notes.handleSummarize_settle rendered noteId (Fulfilled updatedNote) s w)
  = {| Notes.notes :=
         (fun n => if (Note.id n =? noteId)%Z then updatedNote else n)
           <$> Notes.notes rendered;
       Notes.loading := Notes.loading s;
       Notes.showForm := Notes.showForm s;
       Notes.selectedNote :=
         if Notes.selected_is (Notes.selectedNote rendered) noteId
         then Some updatedNote else Notes.selectedNote s;
       Notes.summarizing := None |}.
Proof.
  unfold Notes.handleSummarize_settle, bind, when.
  cbn. by destruct (Notes.selected_is (Notes.selectedNote rendered) noteId).
Qed.

(** C3 as the specification words it fails, on two counts. The title and
    content shown for X afterwards are those of the note the server sent
    back, which the handler does not compare with the ones it had. And
    the handler tests and rewrites the selection (and the list) it closed
    over when summarize was clicked, not the ones on screen when the
    request settles: a note selected in the meantime, with another
    identifier, is replaced by the answer for X. *)
Lemma summarize_as_stated_counterexample :
  ¬ (∀ (s : Notes.State) (w : World) (noteId : Z) (updatedNote : Note.t),
       let s' := final_state
                   (Notes.on_render (fun rendered =>
                      Notes.handleSummarize rendered noteId (Fulfilled updatedNote)) s w) in
       ∀ i n, Notes.notes s !! i = Some n → Note.id n = noteId →
         ∃ n', Notes.notes s' !! i = Some n'
               ∧ Note.title n' = Note.title n ∧ Note.content n' = Note.content n)
  ∧ ¬ (∀ (events : list Notes.Event) (updatedNote : Note.t),
         let sc := Notes.run {| Notes.state := Sample.two_notes;
                                Notes.world := Sample.signed_in;
                                Notes.in_flight := [] |} events in
         let sc' := Notes.step sc (Notes.SummarizeSettled 0 (Fulfilled updatedNote)) in
         ∀ rendered noteId, Notes.in_flight sc !! 0%nat = Some (rendered, noteId) →
           ∀ n, Notes.selectedNote (Notes.state sc) = Some n → Note.id n ≠ noteId →
             Notes.selectedNote (Notes.state sc') = Some n).
Proof.
  split.
  - intros H.
    destruct (H Sample.two_notes Sample.signed_in 7%Z
                {| Note.id := 7; Note.title := lit "Shopping";
                   Note.content := lit "Milk, eggs";
                   Note.image_url := None; Note.summary := Some (lit "Buy milk and eggs");
                   Note.user_id := lit "u-1"; Note.created_at := lit "2024-01-01";
                   Note.updated_at := lit "2024-01-03" |}
                0%nat Sample.groceries eq_refl eq_refl)
      as (n' & Hn' & Htitle & _).
    vm_compute in Hn'. injection Hn' as <-. vm_compute in Htitle. discriminate.
  - intros H.
    specialize (H [Notes.SummarizeClicked; Notes.NoteClicked Sample.chores]
                  (Note.with_summary (Some (lit "Buy milk and eggs")) Sample.groceries)
                  Sample.two_notes 7%Z eq_refl Sample.chores eq_refl).
    cbv zeta in H. vm_compute in H.
    specialize (H ltac:(discriminate)). discriminate.
Qed.

(** C3, amended. When a summarize of X is fulfilled and the list and the
    selection on screen are still those of the click, the handler puts
    the note the server returned in the place of every listed note whose
    id is X and, when the selection's id is X, in the selection; notes
    with another id stay as they are, and so does a selection with
    another id; X is then shown as the server returned it, so its title
    and content are unchanged exactly when the answer carries the same
    ones. *)
Theorem handleSummarize_replaces_by_id (rendered s : Notes.State) (w : World)
    (noteId : Z) (updatedNote : Note.t) :
  Notes.notes s = Notes.notes rendered →
  Notes.selectedNote s = Notes.selectedNote rendered →
  let s' := final_state
              (Notes.handleSummarize_settle rendered noteId (Fulfilled updatedNote) s w) in
  length (Notes.notes s') = length (Notes.notes s)
  ∧ (∀ i n, Notes.notes s !! i = Some n → Note.id n = noteId →
       Notes.notes s' !! i = Some updatedNote)
  ∧ (∀ i n, Notes.notes s !! i = Some n → Note.id n ≠ noteId →
       Notes.notes s' !! i = Some n)
  ∧ (∀ n, Notes.selectedNote s = Some n → Note.id n = noteId →
       Notes.selectedNote s' = Some updatedNote)
  ∧ ((∀ n, Notes.selectedNote s = Some n → Note.id n ≠ noteId) →
       Notes.selectedNote s' = Notes.selectedNote s)
  ∧ (∀ i n, Notes.notes s !! i = Some n → Note.id n = noteId →
       (∃ n', Notes.notes s' !! i = Some n'
              ∧ Note.title n' = Note.title n ∧ Note.content n' = Note.content n)
       ↔ Note.title updatedNote = Note.title n
         ∧ Note.content updatedNote = Note.content n).
Proof.
  intros Hnotes Hsel s'. subst s'. rewrite handleSummarize_settle_fulfilled.
  cbn [Notes.notes Notes.selectedNote]. rewrite <- Hnotes, <- Hsel.
  assert (∀ i n, Notes.notes s !! i = Some n → Note.id n = noteId →
            ((λ n0, if (Note.id n0 =? noteId)%Z then updatedNote else n0)
               <$> Notes.notes s) !! i = Some updatedNote) as Hsame.
  { intros i n Hi Hid. rewrite list_lookup_fmap, Hi. cbn.
    by rewrite (proj2 (Z.eqb_eq _ _) Hid). }
  split_and!.
  - by rewrite length_fmap.
  - exact Hsame.
  - intros i n Hi Hid. rewrite list_lookup_fmap, Hi. cbn.
    by rewrite (proj2 (Z.eqb_neq _ _) Hid).
  - intros n Hn Hid. rewrite Hn. cbn. by rewrite (proj2 (Z.eqb_eq _ _) Hid).
  - intros Hother. destruct (Notes.selectedNote s) as [n|]; [| done].
    cbn. by rewrite (proj2 (Z.eqb_neq _ _) (Hother n eq_refl)).
  - intros i n Hi Hid. rewrite (Hsame i n Hi Hid). split.
    + by intros (n' & [= <-] & Ht & Hc).
    + intros [Ht Hc]. by exists updatedNote.
Qed.

Lemma handleSummarize_replaces_by_id_witness :
  let s' := final_state
              (Notes.on_render (fun rendered =>
                 Notes.handleSummarize rendered 7
                   (Fulfilled (Note.with_summary (Some (lit "Buy milk and eggs"))
                                 Sample.groceries)))
                 Sample.two_notes Sample.signed_in) in
  Notes.notes s' !! 0%nat
    = Some (Note.with_summary (Some (lit "Buy milk and eggs")) Sample.groceries)
  ∧ Notes.notes s' !! 1%nat = Some Sample.chores
  ∧ Notes.selectedNote s'
    = Some (Note.with_summary (Some (lit "Buy milk and eggs")) Sample.groceries).
Proof.
  destruct (handleSummarize_replaces_by_id Sample.two_notes
              (final_state (Notes.handleSummarize_begin 7 Sample.two_notes Sample.signed_in))
              (final_world (Notes.handleSummarize_begin 7 Sample.two_notes Sample.signed_in))
              7 (Note.with_summary (Some (lit "Buy milk and eggs")) Sample.groceries)
              eq_refl eq_refl)
    as (_ & Hsame & Hother & Hsel & _).
  split_and!.
  - by apply (Hsame 0%nat Sample.groceries).
  - by apply (Hother 1%nat Sample.chores).
  - by apply (Hsel Sample.groceries).
Defined.

(** However the request settles, and whatever the state has become in the
    meantime, the settle step ends with the indicator at [null]. *)
Lemma handleSummarize_settle_resets (rendered s : Notes.State) (w : World)
    (noteId : Z) (wire : Settled Note.t) :
  Notes.summarizing
    (final_state (Notes.handleSummarize_settle rendered noteId wire s w)) = None.
Proof.
  unfold Notes.handleSummarize_settle, bind, when.
  destruct wire as [updatedNote | e]; cbn; [| reflexivity].
  by destruct (Notes.selected_is (Notes.selectedNote rendered) noteId).
Qed.

Lemma handleSummarize_settle_selection (rendered s : Notes.State) (w : World)
    (noteId : Z) (wire : Settled Note.t) :
  is_Some (Notes.selectedNote s) →
  is_Some (Notes.selectedNote
             (final_state (Notes.handleSummarize_settle rendered noteId wire s w))).
Proof.
  intros Hsel. unfold Notes.handleSummarize_settle, bind, when.
  destruct wire as [updatedNote | e]; cbn; [| done].
  by destruct (Notes.selected_is (Notes.selectedNote rendered) noteId).
Qed.

Lemma handleSummarize_settle_loading (rendered s : Notes.State) (w : World)
    (noteId : Z) (wire : Settled Note.t) :
  Notes.loading
    (final_state (Notes.handleSummarize_settle rendered noteId wire s w))
  = Notes.loading s.
Proof.
  unfold Notes.handleSummarize_settle, bind, when.
  destruct wire as [updatedNote | e]; cbn; [| reflexivity].
  by destruct (Notes.selected_is (Notes.selectedNote rendered) noteId).
Qed.

(** One attempt for the selected note, nothing else happening: while
    the request is out, the indicator holds the note's id and the button of the selected
    note is disabled; once the request has settled, fulfilled or
    rejected, the indicator is [null] and the button is enabled again. *)
Lemma single_attempt_button (s : Notes.State) (w : World)
    (n : Note.t) (wire : Settled Note.t) :
  Notes.loading s = false →
  Notes.selectedNote s = Some n →
  let in_flight := Notes.handleSummarize_begin (Note.id n) s w in
  let settled :=
    Notes.handleSummarize_settle s (Note.id n) wire
      (final_state in_flight) (final_world in_flight) in
  Notes.summarizing (final_state in_flight) = Some (Note.id n)
  ∧ Notes.summarize_button_disabled (final_state in_flight) = Some true
  ∧ Notes.summarizing (final_state settled) = None
  ∧ Notes.summarize_button_disabled (final_state settled) = Some false
  ∧ settled = Notes.on_render (fun rendered =>
                Notes.handleSummarize rendered (Note.id n) wire) s w.
Proof.
  intros Hload Hsel in_flight settled.
  assert (Notes.summarizing (final_state settled) = None) as Hreset
    by apply handleSummarize_settle_resets.
  assert (Notes.loading (final_state settled) = false) as Hload'.
  { unfold settled. by rewrite handleSummarize_settle_loading. }
  split_and!.
  - reflexivity.
  - unfold Notes.summarize_button_disabled. cbn. rewrite Hload, Hsel.
    by rewrite Z.eqb_refl.
  - exact Hreset.
  - unfold Notes.summarize_button_disabled. rewrite Hreset, Hload'.
    destruct (handleSummarize_settle_selection s (final_state in_flight)
                (final_world in_flight) (Note.id n) wire) as [n' Hn'].
    { cbn. rewrite Hsel. eauto. }
    fold settled in Hn'. by rewrite Hn'.
  - reflexivity.
Qed.








(* ----------------------------------------------------------------- *)
(** ** Failed operations, and the composition form *)

(** A rejected delete changes nothing on the notes screen. *)
Lemma failed_delete_keeps_state (s : Notes.State) (w : World) (id : Z)
    (e : AxiosError.t) (wire_list : Settled (list Note.t)) :
  final_state
    (Notes.on_render (fun rendered =>
       Notes.handleDeleteNote rendered id true (Rejected e) wire_list) s w) = s.
Proof. reflexivity. Qed.

(** A rejected create changes nothing on the notes screen either: the
    list, the selection and the open form are as before. *)
Lemma failed_create_keeps_notes_state (s : Notes.State) (w : World)
    (noteData : NoteCreate.t) (e : AxiosError.t) (wire_list : Settled (list Note.t)) :
  final_state (Notes.handleCreateNote noteData (Rejected e) wire_list s w) = s.
Proof. reflexivity. Qed.

(** [handleCreateNote] catches every rejection: the promise it hands back
    to the form is always fulfilled. *)
Lemma handleCreateNote_resolves (s : Notes.State) (w : World) (noteData : NoteCreate.t)
    (wire : Settled Note.t) (wire_list : Settled (list Note.t)) :
  result (Notes.handleCreateNote noteData wire wire_list s w) = Fulfilled tt.
Proof.
  unfold Notes.handleCreateNote, Notes.loadNotes, Api.create, Api.getAll, bind, when.
  destruct wire as [note | e]; [| reflexivity].
  destruct wire_list as [data | e]; cbn; [reflexivity |].
  by destruct (negb (AxiosError.is_401 e)).
Qed.

Lemma truthy_trim (s : jsstring) : trim s ≠ [] → truthy (trim s) = true.
Proof. by destruct (trim s). Qed.

(** C4 (the draft). When the create request is rejected, the form that
    [Notes] mounts ends up empty: the draft that was typed is gone, while
    the notes screen itself is as before. *)
Theorem failed_create_clears_draft (f : NoteForm.State) (p : Notes.State) (w : World)
    (e : AxiosError.t) (wire_list : Settled (list Note.t)) :
  trim (NoteForm.title f) ≠ [] → trim (NoteForm.content f) ≠ [] →
  let r := NoteForm.submit_in_Notes (Rejected e) wire_list (f, p) w in
  fst (final_state r)
    = {| NoteForm.title := []; NoteForm.content := []; NoteForm.imageUrl := [];
         NoteForm.uploading := NoteForm.uploading f |}
  ∧ snd (final_state r) = p
  ∧ alerts (final_world r)
    = alerts w ++ [or_else (AxiosError.detail_of e) (lit "Failed to create note")].
Proof.
  intros Ht Hc. unfold NoteForm.submit_in_Notes, NoteForm.handleSubmit.
  rewrite (truthy_trim _ Ht), (truthy_trim _ Hc). cbn [negb orb].
  unfold bind, NoteForm.in_parent, NoteForm.in_form, Notes.handleCreateNote,
    Api.create, bind.
  rewrite request_rejected. cbn.
  by rewrite response_error_interceptor_alerts.
Qed.

Lemma failed_create_clears_draft_witness :
  let r := NoteForm.submit_in_Notes (Rejected (Sample.failed_with 500)) (Fulfilled [])
             (Sample.typed_form, Sample.two_notes) Sample.signed_in in
  NoteForm.title (fst (final_state r)) = []
  ∧ NoteForm.content (fst (final_state r)) = []
  ∧ alerts (final_world r) = [lit "Failed to create note"].
Proof.
  destruct (failed_create_clears_draft Sample.typed_form Sample.two_notes
              Sample.signed_in (Sample.failed_with 500) (Fulfilled []))
    as (Hform & _ & Halerts); [by vm_compute | by vm_compute |].
  cbv zeta. rewrite Hform. split_and!; [reflexivity | reflexivity | exact Halerts].
Defined.

(** C5. Submit is blocked (the handler is not called, a dialog is shown,
    the fields stay) unless title and content are both non-empty once
    trimmed; otherwise the handler gets the trimmed title, the trimmed
    content and the image URL, absent when empty; and once the handler has
    resolved, the fields are emptied if no initial data was given and
    kept if it was. *)
Theorem NoteForm_handleSubmit_rules {P : Type} (f : NoteForm.State)
    (initialData : option PartialNoteCreate.t)
    (onSubmit : NoteCreate.t → M P (Settled unit)) (p : P) (w : World) :
  let r := NoteForm.handleSubmit f initialData onSubmit (f, p) w in
  let sent := onSubmit
                {| NoteCreate.title := trim (NoteForm.title f);
                   NoteCreate.content := trim (NoteForm.content f);
                   NoteCreate.image_url :=
                     match NoteForm.imageUrl f with
                     | [] => None
                     | _ :: _ => Some (NoteForm.imageUrl f)
                     end |} p w in
  (trim (NoteForm.title f) = [] ∨ trim (NoteForm.content f) = [] →
     r = (Fulfilled tt, (f, p), push_alert (lit "Please fill in both title and content") w))
  ∧ (trim (NoteForm.title f) ≠ [] → trim (NoteForm.content f) ≠ [] →
     final_world r = final_world sent
     ∧ snd (final_state r) = final_state sent
     ∧ (∀ e, result sent = Rejected e →
          result r = Rejected e ∧ fst (final_state r) = f)
     ∧ (result sent = Fulfilled tt →
          result r = Fulfilled tt
          ∧ (initialData = None →
               fst (final_state r)
                 = {| NoteForm.title := []; NoteForm.content := [];
                      NoteForm.imageUrl := [];
                      NoteForm.uploading := NoteForm.uploading f |})
          ∧ (initialData ≠ None → fst (final_state r) = f))).
Proof.
  intros r sent. subst r. unfold NoteForm.handleSubmit. split.
  - intros Hblank.
    assert (negb (truthy (trim (NoteForm.title f)))
            || negb (truthy (trim (NoteForm.content f))) = true) as ->; [| reflexivity].
    apply orb_true_iff. destruct Hblank as [-> | ->]; auto.
  - intros Ht Hc. rewrite (truthy_trim _ Ht), (truthy_trim _ Hc). cbn [negb orb].
    unfold bind, NoteForm.in_parent, NoteForm.draft.
    assert ((if truthy (NoteForm.imageUrl f) then Some (NoteForm.imageUrl f) else None)
            = match NoteForm.imageUrl f with
              | [] => None
              | _ :: _ => Some (NoteForm.imageUrl f)
              end) as -> by (by destruct (NoteForm.imageUrl f)).
    fold sent.
    destruct sent as [[[[] | e] p'] w'], initialData as [d|]; cbn;
      (split_and!; [done | done | by intros e' [= <-] |]);
      try done; intros _; split_and!; done.
Qed.

Lemma NoteForm_handleSubmit_rules_witness :
  result (NoteForm.handleSubmit
            {| NoteForm.title := lit "   "; NoteForm.content := lit "Milk";
               NoteForm.imageUrl := []; NoteForm.uploading := false |}
            None
            (fun noteData => Notes.handleCreateNote noteData (Rejected (Sample.failed_with 500))
                               (Fulfilled []))
            ({| NoteForm.title := lit "   "; NoteForm.content := lit "Milk";
                NoteForm.imageUrl := []; NoteForm.uploading := false |},
             Sample.two_notes) Sample.signed_in) = Fulfilled tt
  ∧ fst (final_state
           (NoteForm.handleSubmit Sample.typed_form
              (Some {| PartialNoteCreate.title := Some (lit " Groceries ");
                       PartialNoteCreate.content := Some (lit "Milk, eggs ");
                       PartialNoteCreate.image_url := None |})
              (fun _ : NoteCreate.t => ret (S := unit) (Fulfilled tt))
              (Sample.typed_form, tt) Sample.signed_in)) = Sample.typed_form.
Proof.
  split.
  - destruct (NoteForm_handleSubmit_rules
                {| NoteForm.title := lit "   "; NoteForm.content := lit "Milk";
                   NoteForm.imageUrl := []; NoteForm.uploading := false |}
                None
                (fun noteData =>
                   Notes.handleCreateNote noteData (Rejected (Sample.failed_with 500))
                     (Fulfilled []))
                Sample.two_notes Sample.signed_in) as [Hblocked _].
    rewrite Hblocked; [reflexivity | left; by vm_compute].
  - destruct (NoteForm_handleSubmit_rules Sample.typed_form
                (Some {| PartialNoteCreate.title := Some (lit " Groceries ");
                         PartialNoteCreate.content := Some (lit "Milk, eggs ");
                         PartialNoteCreate.image_url := None |})
                (fun _ : NoteCreate.t => ret (S := unit) (Fulfilled tt))
                tt Sample.signed_in) as [_ Hsent].
    destruct Hsent as (_ & _ & _ & Hok); [by vm_compute | by vm_compute |].
    destruct (Hok eq_refl) as (_ & _ & Hkept). by apply Hkept.
Defined.

(* ================================================================= *)
(** * Further properties of the code *)

(** ** The adapter *)

Lemma request_interceptor_other_key (storage config : gmap jsstring jsstring)
    (k : jsstring) :
  k ≠ lit "Authorization" →
  Api.request_interceptor storage config !! k = config !! k.
Proof.
  intros Hk. unfold Api.request_interceptor.
  destruct (storage !! lit "token") as [token|]; [| done].
  destruct (truthy token); [| done]. by rewrite lookup_insert_ne.
Qed.

Lemma request_requests {S A : Type} (ep : Endpoint) (h : gmap jsstring jsstring)
    (wire : Settled A) (s : S) (w : World) :
  requests (final_world (Api.request ep h wire s w))
  = requests w
    ++ [{| endpoint := ep;
           headers := Api.request_interceptor (localStorage w)
                        (h ∪ Api.default_headers) |}].
Proof.
  destruct wire as [a | e]; [reflexivity |].
  rewrite request_rejected. unfold final_world. cbn [snd].
  by rewrite response_error_interceptor_requests.
Qed.

(** X6. A rejection that is not a 401 (another status, or no response at
    all) goes back to the caller with the session left alone: storage and
    location are as before and no dialog is shown by the adapter. *)
Theorem non_401_rejection_keeps_session {S A : Type} (ep : Endpoint)
    (h : gmap jsstring jsstring) (e : AxiosError.t) (s : S) (w : World) :
  AxiosError.is_401 e = false →
  let r := Api.request (A := A) ep h (Rejected e) s w in
  result r = Rejected e
  ∧ final_state r = s
  ∧ localStorage (final_world r) = localStorage w
  ∧ location (final_world r) = location w
  ∧ alerts (final_world r) = alerts w.
Proof.
  intros He. rewrite request_rejected. unfold Api.response_error_interceptor.
  by rewrite He.
Qed.

Lemma non_401_rejection_keeps_session_witness :
  let r := Api.request (S := unit) (A := unit) (DELETE_note 7) ∅
             (Rejected (Sample.failed_with 500)) tt Sample.signed_in in
  localStorage (final_world r) = localStorage Sample.signed_in
  ∧ location (final_world r) = lit "/notes".
Proof.
  destruct (non_401_rejection_keeps_session (S := unit) (A := unit) (DELETE_note 7) ∅
              (Sample.failed_with 500) tt Sample.signed_in eq_refl)
    as (_ & _ & Hstorage & Hloc & _).
  split; [exact Hstorage | exact Hloc].
Defined.

(** X7. On a 401 the interceptor removes the two session keys and nothing
    else from storage, keeps the dialogs and the request log, and running
    it again changes nothing more. *)
Theorem response_401_removes_only_session_keys (e : AxiosError.t) (w : World) :
  AxiosError.is_401 e = true →
  let w' := Api.response_error_interceptor e w in
  (∀ k, k ≠ lit "token" → k ≠ lit "user" →
     localStorage w' !! k = localStorage w !! k)
  ∧ alerts w' = alerts w
  ∧ requests w' = requests w
  ∧ Api.response_error_interceptor e w' = w'.
Proof.
  intros He w'. subst w'. unfold Api.response_error_interceptor. rewrite He.
  split_and!; try reflexivity.
  - intros k Ht Hu. cbn. by rewrite !lookup_delete_ne.
  - unfold set_location, set_localStorage. cbn. f_equal.
    apply map_eq. intros k.
    destruct (decide (k = lit "user")) as [-> | Hu];
      [by rewrite !lookup_delete_eq |].
    rewrite (lookup_delete_ne _ (lit "user") k) by done.
    destruct (decide (k = lit "token")) as [-> | Ht];
      [by rewrite lookup_delete_eq, lookup_delete_ne, lookup_delete_eq |].
    by rewrite !lookup_delete_ne.
Qed.

Lemma response_401_removes_only_session_keys_witness :
  localStorage
    (Api.response_error_interceptor (Sample.failed_with 401)
       {| localStorage := <[ lit "theme" := lit "dark" ]> (localStorage Sample.signed_in);
          location := lit "/notes"; alerts := []; requests := []; session := None |})
    !! lit "theme" = Some (lit "dark").
Proof.
  destruct (response_401_removes_only_session_keys (Sample.failed_with 401)
      {| localStorage := <[ lit "theme" := lit "dark" ]> (localStorage Sample.signed_in);
         location := lit "/notes"; alerts := []; requests := []; session := None |}
      eq_refl) as (Hkeep & _).
  rewrite (Hkeep (lit "theme")) by done. apply lookup_insert_eq.
Defined.

(** X8. An image upload leaves with [Content-Type: multipart/form-data]
    in the place of the instance's [application/json], which every call
    made without headers of its own carries; the bearer token is attached
    to the upload like to any other call. *)
Theorem uploadImage_request_headers {S : Type} (wire : Settled jsstring)
    (s : S) (w : World) :
  (∃ req,
     requests (final_world (Api.uploadImage wire s w)) = requests w ++ [req]
     ∧ endpoint req = POST_upload_image
     ∧ headers req !! lit "Content-Type" = Some (lit "multipart/form-data")
     ∧ (∀ token, localStorage w !! lit "token" = Some token → token ≠ [] →
          headers req !! lit "Authorization" = Some (lit "Bearer " ++ token)))
  ∧ (∀ (A : Type) (ep : Endpoint) (wire' : Settled A), ∃ req,
       requests (final_world (Api.request ep ∅ wire' s w)) = requests w ++ [req]
       ∧ headers req !! lit "Content-Type" = Some (lit "application/json")).
Proof.
  split.
  - unfold Api.uploadImage. rewrite request_requests. eexists.
    split_and!; [reflexivity | reflexivity | |].
    + cbn [headers]. rewrite request_interceptor_other_key by done.
      apply lookup_union_Some_l, lookup_singleton_eq.
    + intros token Hs Ht. cbn [headers].
      rewrite (request_interceptor_token _ _ token) by done.
      apply lookup_insert_eq.
  - intros A ep wire'. rewrite request_requests. eexists. split; [reflexivity |].
    cbn [headers]. rewrite request_interceptor_other_key by done.
    rewrite (left_id_L ∅ (∪)). apply lookup_singleton_eq.
Qed.

Lemma uploadImage_request_headers_witness :
  ∃ req,
    requests (final_world (Api.uploadImage (S := unit)
                (Fulfilled (lit "https://cdn/x.png")) tt Sample.signed_in)) = [req]
    ∧ headers req !! lit "Content-Type" = Some (lit "multipart/form-data")
    ∧ headers req !! lit "Authorization" = Some (lit "Bearer abc").
Proof.
  destruct (uploadImage_request_headers (S := unit)
              (Fulfilled (lit "https://cdn/x.png")) tt Sample.signed_in)
    as [(req & Hreq & _ & Hct & Hauth) _].
  exists req. split_and!; [exact Hreq | exact Hct |].
  apply Hauth; [| discriminate].
  unfold Sample.signed_in. cbn [localStorage].
  rewrite lookup_insert_ne by done. apply lookup_singleton_eq.
Defined.

(** ** Base-URL resolution *)

Lemma startsWith_nonempty (p s : jsstring) :
  p ≠ [] → startsWith p s = true → s ≠ [].
Proof. destruct p, s; simpl; congruence. Qed.

(** X9. Whatever the environment holds, the base URL the adapter is
    created with is usable: it is never empty and always starts with
    [http://], [https://] or [/]. *)
Theorem getApiBaseURL_always_valid (env : ImportMetaEnv) :
  getApiBaseURL env ≠ []
  ∧ (is_absolute_http (getApiBaseURL env) = true
     ∨ is_root_relative (getApiBaseURL env) = true).
Proof.
  assert (is_absolute_http (getApiBaseURL env) = true
          ∨ is_root_relative (getApiBaseURL env) = true) as Hvalid.
  { unfold getApiBaseURL.
    destruct (VITE_API_URL env) as [v|]; [| by right].
    destruct (truthy v && truthy (trim v)); [| by right].
    cbv zeta.
    destruct (PROD env && includes (lit "localhost") (strip_trailing_slash (trim v)));
      [by right |].
    destruct (startsWith (lit "http://") (strip_trailing_slash (trim v))) eqn:H1.
    { left. unfold is_absolute_http. cbn [orb]. by rewrite H1. }
    destruct (startsWith (lit "https://") (strip_trailing_slash (trim v))) eqn:H2.
    { left. unfold is_absolute_http. cbn [orb]. by rewrite H2, orb_true_r. }
    destruct (startsWith (lit "/") (strip_trailing_slash (trim v))) eqn:H3.
    { right. cbn [orb]. exact H3. }
    by right. }
  split; [| exact Hvalid].
  destruct Hvalid as [H | H].
  - unfold is_absolute_http in H. apply orb_true_iff in H as [H | H];
      by apply startsWith_nonempty in H.
  - by apply startsWith_nonempty in H.
Qed.

(** X10. In a production build the base URL never contains [localhost],
    whatever the override is. *)
Theorem getApiBaseURL_prod_never_localhost (env : ImportMetaEnv) :
  PROD env = true →
  includes (lit "localhost") (getApiBaseURL env) = false.
Proof.
  intros Hprod. unfold getApiBaseURL. rewrite Hprod.
  destruct (VITE_API_URL env) as [v|]; [| done].
  destruct (truthy v && truthy (trim v)); [| done].
  cbv zeta. cbn [andb].
  destruct (includes (lit "localhost") (strip_trailing_slash (trim v))) eqn:Hloc;
    [done |].
  by destruct (startsWith (lit "http://") (strip_trailing_slash (trim v))
               || startsWith (lit "https://") (strip_trailing_slash (trim v))
               || startsWith (lit "/") (strip_trailing_slash (trim v))).
Qed.

Lemma getApiBaseURL_prod_never_localhost_witness :
  includes (lit "localhost")
    (getApiBaseURL {| VITE_API_URL := Some (lit "http://localhost:8000/");
                      PROD := true; DEV := false |}) = false.
Proof.
  exact (getApiBaseURL_prod_never_localhost
           {| VITE_API_URL := Some (lit "http://localhost:8000/");
              PROD := true; DEV := false |} eq_refl).
Defined.

(** ** The notes screen, further *)

(** X11. [loadNotes] always takes the loading screen down again, and it
    touches nothing but the list: on success the list is exactly what the
    server sent and nothing is shown; on failure the list stays as it
    was. *)
Theorem loadNotes_outcomes (wire : Settled (list Note.t)) (s : Notes.State) (w : World) :
  let r := Notes.loadNotes wire s w in
  Notes.loading (final_state r) = false
  ∧ Notes.showForm (final_state r) = Notes.showForm s
  ∧ Notes.selectedNote (final_state r) = Notes.selectedNote s
  ∧ Notes.summarizing (final_state r) = Notes.summarizing s
  ∧ (∀ data, wire = Fulfilled data →
       Notes.notes (final_state r) = data ∧ alerts (final_world r) = alerts w)
  ∧ (∀ e, wire = Rejected e → Notes.notes (final_state r) = Notes.notes s).
Proof.
  unfold Notes.loadNotes, Api.getAll, bind, when.
  destruct wire as [data | e]; cbn.
  - split_and!; try done. by intros ? [= <-].
  - destruct (AxiosError.is_401 e); cbn; split_and!; done.
Qed.

(** X12. What the dialog of a failed load says, 401 apart, for an answer
    whose [detail] is a string or is not there: the [detail] when it is
    a non-empty string; the error's own message when the [detail] is
    absent or empty; the fixed text when the message is empty too;
    always behind [Failed to load notes: ]. *)
Theorem loadNotes_failure_message (e : AxiosError.t) (s : Notes.State) (w : World) :
  AxiosError.is_401 e = false →
  let shown := alerts (final_world (Notes.loadNotes (Rejected e) s w)) in
  (∀ d, AxiosError.detail_of e = Some d → d ≠ [] →
     shown = alerts w ++ [lit "Failed to load notes: " ++ d])
  ∧ (AxiosError.detail_of e = None ∨ AxiosError.detail_of e = Some [] →
     AxiosError.message e ≠ [] →
     shown = alerts w ++ [lit "Failed to load notes: " ++ AxiosError.message e])
  ∧ (AxiosError.detail_of e = None ∨ AxiosError.detail_of e = Some [] →
     AxiosError.message e = [] →
     shown = alerts w ++ [lit "Failed to load notes: " ++ lit "Failed to load notes"]).
Proof.
  intros He shown. subst shown.
  unfold Notes.loadNotes, Api.getAll, bind, when. cbn. rewrite He. cbn.
  rewrite response_error_interceptor_alerts. cbn.
  split_and!.
  - intros d -> Hd. unfold or_else at 1. by destruct d.
  - intros Hdetail Hmsg. unfold or_else.
    destruct Hdetail as [-> | ->]; cbn; by destruct (AxiosError.message e).
  - intros Hdetail Hmsg. unfold or_else.
    destruct Hdetail as [-> | ->]; cbn; by rewrite Hmsg.
Qed.

Lemma loadNotes_failure_message_witness :
  alerts (final_world (Notes.loadNotes (Rejected (Sample.failed_with 500))
                         Sample.two_notes Sample.signed_in))
  = [lit "Failed to load notes: " ++ lit "Request failed"].
Proof.
  destruct (loadNotes_failure_message (Sample.failed_with 500) Sample.two_notes
              Sample.signed_in eq_refl) as (_ & Hmsg & _).
  apply Hmsg; [by left | discriminate].
Defined.

(** X13. The requests a delete sends: none at all when the confirmation
    dialog is declined (nothing changes then); otherwise the DELETE, and
    after it the reload of the list only if the DELETE went through. *)
Theorem delete_request_trace (s : Notes.State) (w : World) (id : Z)
    (confirmed : bool) (wire : Settled unit) (wire_list : Settled (list Note.t)) :
  let r := Notes.on_render (fun rendered =>
             Notes.handleDeleteNote rendered id confirmed wire wire_list) s w in
  endpoint <$> requests (final_world r)
  = (endpoint <$> requests w)
    ++ (if confirmed
        then DELETE_note id :: match wire with
                               | Fulfilled _ => [GET_notes]
                               | Rejected _ => []
                               end
        else [])
  ∧ (confirmed = false → r = (tt, s, w)).
Proof.
  unfold Notes.on_render, Notes.handleDeleteNote.
  destruct confirmed; cbn [negb]; [| split; [by rewrite app_nil_r | done]].
  split; [| done].
  unfold Notes.loadNotes, Api.delete, Api.getAll, bind, when.
  destruct wire as [[] | e].
  - destruct wire_list as [data | e'];
      [| destruct (AxiosError.is_401 e') eqn:He'];
      destruct (Notes.selected_is (Notes.selectedNote s) id); cbn;
      rewrite ?He'; cbn;
      rewrite ?response_error_interceptor_requests; cbn;
      by rewrite !fmap_app, <- app_assoc.
  - cbn. rewrite response_error_interceptor_requests. cbn.
    by rewrite fmap_app.
Qed.

(** X14. A delete that went through clears the selection when the note
    that was selected as Delete was clicked has the deleted id (from the
    detail pane it always has), whatever is selected by the time the
    request settles: the test reads the selection the handler closed
    over. Otherwise the selection on screen is kept. The list becomes
    what the reload returns, and when the reload fails the deleted note
    is still listed. *)
Theorem successful_delete (rendered s : Notes.State) (w : World) (id : Z)
    (wire_list : Settled (list Note.t)) :
  let r := Notes.handleDeleteNote rendered id true (Fulfilled tt) wire_list s w in
  (∀ n, Notes.selectedNote rendered = Some n → Note.id n = id →
     Notes.selectedNote (final_state r) = None)
  ∧ (Notes.selectedNote rendered = None
     ∨ (∃ n, Notes.selectedNote rendered = Some n ∧ Note.id n ≠ id) →
       Notes.selectedNote (final_state r) = Notes.selectedNote s)
  ∧ (∀ data, wire_list = Fulfilled data → Notes.notes (final_state r) = data)
  ∧ (∀ e, wire_list = Rejected e → Notes.notes (final_state r) = Notes.notes s)
  ∧ Notes.loading (final_state r) = false.
Proof.
  assert (∀ n, Notes.selectedNote rendered = Some n → Note.id n = id →
            Notes.selected_is (Notes.selectedNote rendered) id = true) as Hyes.
  { intros n -> <-. cbn. apply Z.eqb_refl. }
  assert (Notes.selectedNote rendered = None
          ∨ (∃ n, Notes.selectedNote rendered = Some n ∧ Note.id n ≠ id) →
          Notes.selected_is (Notes.selectedNote rendered) id = false) as Hno.
  { intros [-> | (n & -> & Hne)]; [done |]. cbn. by apply Z.eqb_neq. }
  unfold Notes.handleDeleteNote, Notes.loadNotes, Api.delete, Api.getAll, bind, when.
  cbn [negb].
  destruct (Notes.selected_is (Notes.selectedNote rendered) id) eqn:Hb;
    (destruct wire_list as [data | e]; [| destruct (AxiosError.is_401 e) eqn:He]);
    cbn; rewrite ?He; cbn; split_and!;
    try done; try (by intros ? [= <-]);
    try (intros n Hn Hid; specialize (Hyes n Hn Hid); congruence);
    try (intros Hother; specialize (Hno Hother); congruence).
Qed.

Lemma successful_delete_witness :
  let later :=
    final_state (Notes.setSelectedNote (Some Sample.chores)
                   Sample.two_notes Sample.signed_in) in
  let r := Notes.handleDeleteNote Sample.two_notes 7 true (Fulfilled tt)
             (Fulfilled [Sample.chores]) later Sample.signed_in in
  Notes.selectedNote later = Some Sample.chores
  ∧ Notes.selectedNote (final_state r) = None
  ∧ Notes.notes (final_state r) = [Sample.chores].
Proof.
  destruct (successful_delete Sample.two_notes
              (final_state (Notes.setSelectedNote (Some Sample.chores)
                              Sample.two_notes Sample.signed_in))
              Sample.signed_in 7 (Fulfilled [Sample.chores]))
    as (Hsel & _ & Hlist & _).
  split_and!; [reflexivity | by apply (Hsel Sample.groceries) | by apply Hlist].
Defined.

(** X15. A create that went through closes the form, leaves the selection
    alone, and shows the list the reload returns: the note the POST
    answered with is not inserted by the client, so if the reload fails
    the list is as it was. The requests are the POST, then the GET. *)
Theorem successful_create (s : Notes.State) (w : World) (noteData : NoteCreate.t)
    (created : Note.t) (wire_list : Settled (list Note.t)) :
  let r := Notes.handleCreateNote noteData (Fulfilled created) wire_list s w in
  Notes.showForm (final_state r) = false
  ∧ Notes.selectedNote (final_state r) = Notes.selectedNote s
  ∧ (∀ data, wire_list = Fulfilled data → Notes.notes (final_state r) = data)
  ∧ (∀ e, wire_list = Rejected e → Notes.notes (final_state r) = Notes.notes s)
  ∧ endpoint <$> requests (final_world r)
    = (endpoint <$> requests w) ++ [POST_notes; GET_notes].
Proof.
  unfold Notes.handleCreateNote, Notes.loadNotes, Api.create, Api.getAll, bind, when.
  destruct wire_list as [data | e]; [| destruct (AxiosError.is_401 e) eqn:He];
    cbn; rewrite ?He; cbn; rewrite ?response_error_interceptor_requests; cbn;
    (split_and!; try done; try (by intros ? [= <-]);
     by rewrite !fmap_app, <- app_assoc).
Qed.

(** X16. The preview on a card: a content of at most 100 code units is
    shown whole; a longer one is cut to its first 100 units followed by
    three dots; so a preview never exceeds 103 units. *)
Theorem note_preview_bounds (content : jsstring) :
  (length content ≤ 100 → NotesView.note_preview content = content)
  ∧ (100 < length content →
       NotesView.note_preview content = take 100 content ++ lit "..."
       ∧ length (NotesView.note_preview content) = 103)
  ∧ length (NotesView.note_preview content) ≤ 103
  ∧ take 100 content `prefix_of` NotesView.note_preview content.
Proof.
  unfold NotesView.note_preview.
  destruct (Nat.ltb_spec 100 (length content)) as [Hlong | Hshort].
  - split_and!.
    + lia.
    + intros _. split; [done |].
      rewrite length_app, length_take. change (length (lit "...")) with 3. lia.
    + rewrite length_app, length_take. change (length (lit "...")) with 3. lia.
    + by apply prefix_app_r.
  - split_and!.
    + intros _. by rewrite app_nil_r, take_ge.
    + lia.
    + rewrite app_nil_r, length_take. lia.
    + by apply prefix_app_r.
Qed.

Lemma note_preview_bounds_witness :
  NotesView.note_preview (lit "Milk, eggs") = lit "Milk, eggs"
  ∧ length (NotesView.note_preview (replicate 250 97%N)) = 103.
Proof.
  split.
  - destruct (note_preview_bounds (lit "Milk, eggs")) as (Hshort & _).
    apply Hshort. vm_compute. lia.
  - destruct (note_preview_bounds (replicate 250 97%N)) as (_ & Hlong & _).
    apply Hlong. rewrite length_replicate. lia.
Defined.

(** X17. The summarize button reads [Generating...] exactly when it is
    disabled, and it has a text exactly when it is rendered. *)
Theorem summarize_label_matches_disabled (s : Notes.State) :
  (NotesView.summarize_button_label s = Some (lit "Generating...")
   ↔ Notes.summarize_button_disabled s = Some true)
  ∧ (NotesView.summarize_button_label s = None
     ↔ Notes.summarize_button_disabled s = None).
Proof.
  unfold NotesView.summarize_button_label, Notes.summarize_button_disabled.
  destruct (Notes.loading s); [done |].
  destruct (Notes.selectedNote s) as [n|]; [| done].
  destruct (match Notes.summarizing s with
            | Some id => (id =? Note.id n)%Z
            | None => false
            end); [done |].
  destruct (is_set (Note.summary n)); split; split; intros [=].
Qed.

(** X18. Once a summarize of the selected note has been fulfilled, the
    detail pane shows the summary the server sent and the button offers
    to regenerate it, when that summary is a non-empty text; when the
    answer carries none, the button still offers to generate one. *)
Theorem summarize_then_detail_pane (s : Notes.State) (w : World) (n updatedNote : Note.t) :
  Notes.loading s = false →
  Notes.selectedNote s = Some n →
  let s' := final_state
              (Notes.on_render (fun rendered =>
                 Notes.handleSummarize rendered (Note.id n) (Fulfilled updatedNote)) s w) in
  (∀ summary, Note.summary updatedNote = Some summary → summary ≠ [] →
     NotesView.detail_summary s' = Some summary
     ∧ NotesView.summarize_button_label s' = Some (lit "Regenerate Summary"))
  ∧ (Note.summary updatedNote = None ∨ Note.summary updatedNote = Some [] →
     NotesView.detail_summary s' = None
     ∧ NotesView.summarize_button_label s' = Some (lit "Generate Summary")).
Proof.
  intros Hload Hsel s'. subst s'.
  change (final_state
            (Notes.on_render (fun rendered =>
               Notes.handleSummarize rendered (Note.id n) (Fulfilled updatedNote)) s w))
    with (final_state
            (Notes.handleSummarize_settle s (Note.id n) (Fulfilled updatedNote)
               (final_state (Notes.handleSummarize_begin (Note.id n) s w))
               (final_world (Notes.handleSummarize_begin (Note.id n) s w)))).
  rewrite handleSummarize_settle_fulfilled.
  unfold NotesView.detail_summary, NotesView.summarize_button_label.
  cbn. rewrite Hload, Hsel. cbn. rewrite Z.eqb_refl.
  split.
  - intros summary Hsum Hne. rewrite Hsum. cbn. by destruct summary.
  - by intros [-> | ->].
Qed.

Lemma summarize_then_detail_pane_witness :
  NotesView.summarize_button_label
    (final_state
       (Notes.on_render (fun rendered =>
          Notes.handleSummarize rendered 7
            (Fulfilled (Note.with_summary (Some (lit "Buy milk and eggs"))
                          Sample.groceries)))
          Sample.two_notes Sample.signed_in))
  = Some (lit "Regenerate Summary").
Proof.
  destruct (summarize_then_detail_pane Sample.two_notes Sample.signed_in
              Sample.groceries
              (Note.with_summary (Some (lit "Buy milk and eggs")) Sample.groceries)
              eq_refl eq_refl) as [Hsome _].
  by apply (Hsome (lit "Buy milk and eggs")).
Defined.

(** ** The login screen, further *)

Lemma or_else_nonempty_r (a : option jsstring) (b : jsstring) :
  b ≠ [] → or_else a b ≠ [].
Proof.
  intros Hb. unfold or_else. destruct a as [[|c t]|]; simpl; done.
Qed.

(** X19. Whatever the answer, a submit leaves what was typed, the mode
    and the success text as they were, and ends with the button enabled
    again. *)
Theorem handleSubmit_frame (login : jsstring → User.t → World → World)
    (wire : Settled TokenResponse.t) (s : Login.State) (w : World) :
  let s' := final_state
              (Login.on_render (fun rendered => Login.handleSubmit rendered login wire) s w) in
  Login.email s' = Login.email s
  ∧ Login.password s' = Login.password s
  ∧ Login.isRegister s' = Login.isRegister s
  ∧ Login.success s' = Login.success s
  ∧ LoginView.submit_disabled s' = false.
Proof.
  unfold Login.on_render, Login.handleSubmit, bind.
  destruct s as [em pw er su lo []], wire as [response | err]; cbn;
    try destruct (TokenResponse.requires_confirmation response); cbn; done.
Qed.

(** X20. An answer without the confirmation signal signs the user in:
    [login] gets exactly the token and the user of the answer, after the
    request and before the move to [/notes], and no error is left on
    screen. *)
Theorem handleSubmit_success_logs_in (login : jsstring → User.t → World → World)
    (response : TokenResponse.t) (s : Login.State) (w : World) :
  TokenResponse.requires_confirmation response = false →
  let r := Login.on_render
             (fun rendered => Login.handleSubmit rendered login (Fulfilled response)) s w in
  final_world r
  = set_location (lit "/notes")
      (login (TokenResponse.access_token response) (TokenResponse.user response)
         (push_request
            {| endpoint := if Login.isRegister s then POST_auth_register
                           else POST_auth_login;
               headers := Api.request_interceptor (localStorage w)
                            (∅ ∪ Api.default_headers) |} w))
  ∧ Login.error_banner (final_state r) = None.
Proof.
  intros Hc. unfold Login.on_render, Login.handleSubmit, bind.
  destruct s as [em pw er su lo []]; cbn; rewrite Hc; done.
Qed.

Lemma handleSubmit_success_logs_in_witness :
  let r := Login.on_render
             (fun rendered =>
                Login.handleSubmit rendered (fun token user => set_session (Some (token, user)))
                  (Fulfilled
                     {| TokenResponse.access_token := lit "abc";
                        TokenResponse.token_type := lit "bearer";
                        TokenResponse.user := Sample.alice;
                        TokenResponse.requires_confirmation := false;
                        TokenResponse.message := None |}))
             Login.initial Sample.signed_out in
  session (final_world r) = Some (lit "abc", Sample.alice)
  ∧ location (final_world r) = lit "/notes".
Proof.
  destruct (handleSubmit_success_logs_in
              (fun token user => set_session (Some (token, user)))
              {| TokenResponse.access_token := lit "abc";
                 TokenResponse.token_type := lit "bearer";
                 TokenResponse.user := Sample.alice;
                 TokenResponse.requires_confirmation := false;
                 TokenResponse.message := None |}
              Login.initial Sample.signed_out eq_refl) as [Hworld _].
  cbv zeta. rewrite Hworld. split; reflexivity.
Defined.

(** X21. A rejected submit whose answer carries a string [detail] or
    none ends with an inline error on screen and never with a dialog;
    [login] is not called and the handler does not navigate: the world
    is the one the adapter left. The text is the [detail] when it is a
    non-empty string. *)
Theorem handleSubmit_rejected (login : jsstring → User.t → World → World)
    (err : AxiosError.t) (s : Login.State) (w : World) :
  let r := Login.on_render
             (fun rendered => Login.handleSubmit rendered login (Rejected err)) s w in
  is_Some (Login.error_banner (final_state r))
  ∧ (∀ d, AxiosError.detail_of err = Some d → d ≠ [] →
       Login.error_banner (final_state r) = Some d)
  ∧ alerts (final_world r) = alerts w
  ∧ final_world r
    = Api.response_error_interceptor err
        (push_request
           {| endpoint := if Login.isRegister s then POST_auth_register
                          else POST_auth_login;
              headers := Api.request_interceptor (localStorage w)
                           (∅ ∪ Api.default_headers) |} w).
Proof.
  unfold Login.on_render, Login.handleSubmit, bind.
  destruct s as [em pw er su lo []]; cbn;
    (split_and!;
     [ unfold Login.error_banner; cbn;
       rewrite or_else_truthy; [eauto | by apply or_else_nonempty_r]
     | intros d Hd Hne; unfold Login.error_banner; cbn; rewrite Hd;
       unfold or_else at 1 2; by destruct d
     | by rewrite response_error_interceptor_alerts
     | reflexivity ]).
Qed.

(** X22. Search parameters that are neither a confirmation nor an error:
    with [token_hash] and [type] both non-empty the screen says that the
    confirmation is being processed, keeps its error text and sends
    nothing; with one of them missing or empty nothing changes at all. *)
Theorem searchParams_processing_or_nothing (searchParams : Login.SearchParams)
    (s : Login.State) (w : World) :
  Login.get (lit "confirmed") searchParams ≠ Some (lit "true") →
  Login.get (lit "success") searchParams ≠ Some (lit "true") →
  Login.present (Login.get (lit "error") searchParams) = false →
  let r := Login.useEffect_searchParams searchParams s w in
  (Login.present (Login.get (lit "token_hash") searchParams) = true →
   Login.present (Login.get (lit "type") searchParams) = true →
     Login.success_banner (final_state r) = Some (lit "Processing email confirmation...")
     ∧ Login.error (final_state r) = Login.error s
     ∧ final_world r = w)
  ∧ (Login.present (Login.get (lit "token_hash") searchParams) = false
     ∨ Login.present (Login.get (lit "type") searchParams) = false →
     r = (tt, s, w)).
Proof.
  intros Hc Hs He r. subst r. unfold Login.useEffect_searchParams, Login.is_true.
  rewrite (bool_decide_eq_false_2 _ Hc), (bool_decide_eq_false_2 _ Hs), He.
  cbn [orb]. split.
  - by intros -> ->.
  - intros [-> | ->]; [done | by rewrite andb_false_r].
Qed.

Lemma searchParams_processing_or_nothing_witness :
  Login.success_banner
    (final_state
       (Login.useEffect_searchParams
          [(lit "token_hash", lit "t0k"); (lit "type", lit "signup")]
          Login.initial Sample.signed_out))
  = Some (lit "Processing email confirmation...")
  ∧ Login.useEffect_searchParams [(lit "type", lit "signup")]
      Login.initial Sample.signed_out
    = (tt, Login.initial, Sample.signed_out).
Proof.
  split.
  - destruct (searchParams_processing_or_nothing
                [(lit "token_hash", lit "t0k"); (lit "type", lit "signup")]
                Login.initial Sample.signed_out) as [H _]; [done | done | done |].
    by apply H.
  - destruct (searchParams_processing_or_nothing [(lit "type", lit "signup")]
                Login.initial Sample.signed_out) as [_ H]; [done | done | done |].
    apply H. by left.
Defined.

(** X23. While a submit is out the button is disabled and reads
    [Loading...], and the previous error is off the screen; the two
    halves of the handler, run one after the other, are the handler; and
    once the request has settled the button is enabled again. *)
Theorem login_submit_in_flight (login : jsstring → User.t → World → World)
    (wire : Settled TokenResponse.t) (s : Login.State) (w : World) :
  let sent := LoginView.handleSubmit_begin s s w in
  let settled := LoginView.handleSubmit_settle login wire
                   (final_state sent) (final_world sent) in
  LoginView.submit_disabled (final_state sent) = true
  ∧ LoginView.submit_label (final_state sent) = lit "Loading..."
  ∧ Login.error_banner (final_state sent) = None
  ∧ Login.success_banner (final_state sent) = Login.success_banner s
  ∧ settled
    = Login.on_render (fun rendered => Login.handleSubmit rendered login wire) s w
  ∧ LoginView.submit_disabled (final_state settled) = false.
Proof.
  unfold LoginView.handleSubmit_begin, LoginView.handleSubmit_settle,
    Login.on_render, Login.handleSubmit, bind.
  destruct s as [em pw er su lo []], wire as [response | err]; cbn;
    try destruct (TokenResponse.requires_confirmation response); cbn; done.
Qed.

(** ** The composition form, further *)

Lemma trimStart_head (s t : jsstring) (c : N) :
  trimStart s = c :: t → is_trim_unit c = false.
Proof.
  induction s as [|d s IH]; [done |]. cbn [trimStart].
  destruct (is_trim_unit d) eqn:Hd; [exact IH |]. by intros [= <- _].
Qed.

Lemma trimStart_nil (s : jsstring) :
  trimStart s = [] ↔ Forall (fun c => is_trim_unit c = true) s.
Proof.
  induction s as [|d s IH]; [by split |]. cbn [trimStart].
  destruct (is_trim_unit d) eqn:Hd.
  - rewrite IH. split; [by constructor | by inversion 1].
  - split; [done |]. inversion 1; congruence.
Qed.

Lemma trimStart_suffix (s : jsstring) :
  ∃ blanks, s = blanks ++ trimStart s ∧ Forall (fun c => is_trim_unit c = true) blanks.
Proof.
  induction s as [|d s (blanks & Hs & Hb)]; [by exists [] |]. cbn [trimStart].
  destruct (is_trim_unit d) eqn:Hd; [| by exists []].
  exists (d :: blanks). split; [by rewrite Hs at 1 | by constructor].
Qed.

Lemma trimEnd_prefix (s : jsstring) :
  ∃ blanks, s = trimEnd s ++ blanks ∧ Forall (fun c => is_trim_unit c = true) blanks.
Proof.
  destruct (trimStart_suffix (reverse s)) as (blanks & Hs & Hb).
  exists (reverse blanks). split; [| by apply Forall_reverse].
  unfold trimEnd. apply (inj reverse).
  by rewrite reverse_app, !reverse_involutive.
Qed.

Lemma trim_no_leading (s t : jsstring) (c : N) :
  trim s = c :: t → is_trim_unit c = false.
Proof.
  unfold trim. intros Ht.
  destruct (trimEnd_prefix (trimStart s)) as (blanks & Hs & _).
  rewrite Ht in Hs. by apply trimStart_head in Hs.
Qed.

Lemma trim_no_trailing (s t : jsstring) (c : N) :
  trim s = t ++ [c] → is_trim_unit c = false.
Proof.
  unfold trim, trimEnd. intros Ht.
  apply (f_equal reverse) in Ht.
  rewrite reverse_involutive, reverse_app in Ht.
  by apply trimStart_head in Ht.
Qed.

Lemma trim_blank (s : jsstring) :
  trim s = [] ↔ Forall (fun c => is_trim_unit c = true) s.
Proof.
  destruct (trimStart_suffix s) as (b1 & Hs1 & Hb1).
  destruct (trimEnd_prefix (trimStart s)) as (b2 & Hs2 & Hb2).
  fold (trim s) in Hs2. split.
  - intros Ht. rewrite Ht in Hs2. rewrite Hs1, Hs2. by apply Forall_app.
  - intros Hall. destruct (trim s) as [|c t] eqn:Ht; [done |].
    apply trim_no_leading in Ht as Hc.
    rewrite Hs1, Hs2 in Hall. apply Forall_app in Hall as [_ Hall].
    inversion Hall; congruence.
Qed.

(** X24. A title or a content made of nothing but blanks (or of nothing)
    blocks the submit: the handler is not called, the dialog asks for
    both fields, and the form keeps what it holds. A form opened without
    initial data is in that case. *)
Theorem blank_fields_block_submit {P : Type} (f : NoteForm.State)
    (initialData : option PartialNoteCreate.t)
    (onSubmit : NoteCreate.t → M P (Settled unit)) (p : P) (w : World) :
  (Forall (fun c => is_trim_unit c = true) (NoteForm.title f)
   ∨ Forall (fun c => is_trim_unit c = true) (NoteForm.content f) →
     NoteForm.handleSubmit f initialData onSubmit (f, p) w
     = (Fulfilled tt, (f, p),
        push_alert (lit "Please fill in both title and content") w))
  ∧ NoteForm.handleSubmit (NoteForm.initial None) initialData onSubmit
      (NoteForm.initial None, p) w
    = (Fulfilled tt, (NoteForm.initial None, p),
       push_alert (lit "Please fill in both title and content") w).
Proof.
  split; [| reflexivity].
  intros Hblank. unfold NoteForm.handleSubmit.
  assert (negb (truthy (trim (NoteForm.title f)))
          || negb (truthy (trim (NoteForm.content f))) = true) as ->; [| reflexivity].
  apply orb_true_iff.
  destruct Hblank as [H | H]; apply trim_blank in H; rewrite H; auto.
Qed.

Lemma blank_fields_block_submit_witness :
  alerts (final_world
            (NoteForm.handleSubmit
               {| NoteForm.title := [9; 32; 160; 10]%N; NoteForm.content := lit "Milk";
                  NoteForm.imageUrl := []; NoteForm.uploading := false |}
               None
               (fun _ : NoteCreate.t => ret (S := unit) (Fulfilled tt))
               ({| NoteForm.title := [9; 32; 160; 10]%N; NoteForm.content := lit "Milk";
                   NoteForm.imageUrl := []; NoteForm.uploading := false |}, tt)
               Sample.signed_in))
  = [lit "Please fill in both title and content"].
Proof.
  destruct (blank_fields_block_submit
              {| NoteForm.title := [9; 32; 160; 10]%N; NoteForm.content := lit "Milk";
                 NoteForm.imageUrl := []; NoteForm.uploading := false |}
              None
              (fun _ : NoteCreate.t => ret (S := unit) (Fulfilled tt))
              tt Sample.signed_in) as [Hblocked _].
  rewrite Hblocked; [reflexivity |].
  left. cbn [NoteForm.title]. repeat constructor.
Defined.

(** X25. The draft handed to the handler is normalised: neither its title
    nor its content begins or ends with a blank, and its image URL is
    either absent or a non-empty text. *)
Theorem draft_is_normalised (f : NoteForm.State) :
  (∀ c t, NoteCreate.title (NoteForm.draft f) = c :: t → is_trim_unit c = false)
  ∧ (∀ t c, NoteCreate.title (NoteForm.draft f) = t ++ [c] → is_trim_unit c = false)
  ∧ (∀ c t, NoteCreate.content (NoteForm.draft f) = c :: t → is_trim_unit c = false)
  ∧ (∀ t c, NoteCreate.content (NoteForm.draft f) = t ++ [c] → is_trim_unit c = false)
  ∧ NoteCreate.image_url (NoteForm.draft f) ≠ Some [].
Proof.
  unfold NoteForm.draft. cbn. split_and!.
  - intros c t. apply trim_no_leading.
  - intros t c. apply trim_no_trailing.
  - intros c t. apply trim_no_leading.
  - intros t c. apply trim_no_trailing.
  - by destruct (NoteForm.imageUrl f).
Qed.

(** X26. An image upload never touches title or content. Without a file
    nothing happens at all; with one, the upload flag is down again at
    the end, the image URL is the one the server returned on success, and
    on failure it is kept and a dialog is shown. *)
Theorem handleImageUpload_outcomes (has_file : bool) (wire : Settled jsstring)
    (s : NoteForm.State) (w : World) :
  let r := NoteForm.handleImageUpload has_file wire s w in
  NoteForm.title (final_state r) = NoteForm.title s
  ∧ NoteForm.content (final_state r) = NoteForm.content s
  ∧ (has_file = false → r = (tt, s, w))
  ∧ (has_file = true → NoteForm.uploading (final_state r) = false)
  ∧ (∀ url, has_file = true → wire = Fulfilled url →
       NoteForm.imageUrl (final_state r) = url ∧ alerts (final_world r) = alerts w)
  ∧ (∀ e, has_file = true → wire = Rejected e →
       NoteForm.imageUrl (final_state r) = NoteForm.imageUrl s
       ∧ alerts (final_world r)
         = alerts w ++ [or_else (AxiosError.detail_of e) (lit "Failed to upload image")]).
Proof.
  unfold NoteForm.handleImageUpload, Api.uploadImage, bind.
  destruct has_file; cbn [negb]; [| by split_and!].
  destruct wire as [url | e]; cbn.
  - split_and!; try done. by intros ? _ [= <-].
  - rewrite response_error_interceptor_alerts.
    split_and!; try done. by intros ? _ [= <-].
Qed.

Lemma truthy_nonempty (s : jsstring) : s ≠ [] → truthy s = true.
Proof. by destruct s. Qed.

(** X27. What the form sends after the image buttons were used: after an
    upload that returned a non-empty URL, the draft carries that URL with
    the trimmed title and content; after the remove button, it carries no
    image. *)
Theorem image_buttons_then_draft (f : NoteForm.State) (w : World) (url : jsstring) :
  url ≠ [] →
  let uploaded := final_state (NoteForm.handleImageUpload true (Fulfilled url) f w) in
  let removed := final_state (NoteFormView.remove_image uploaded w) in
  NoteForm.draft uploaded
  = {| NoteCreate.title := trim (NoteForm.title f);
       NoteCreate.content := trim (NoteForm.content f);
       NoteCreate.image_url := Some url |}
  ∧ NoteFormView.image_preview uploaded = Some url
  ∧ NoteForm.draft removed
    = {| NoteCreate.title := trim (NoteForm.title f);
         NoteCreate.content := trim (NoteForm.content f);
         NoteCreate.image_url := None |}
  ∧ NoteFormView.image_preview removed = None.
Proof.
  intros Hurl. unfold NoteForm.handleImageUpload, Api.uploadImage, bind,
    NoteFormView.remove_image, NoteForm.draft, NoteFormView.image_preview.
  cbn. by rewrite (truthy_nonempty url Hurl).
Qed.

Lemma image_buttons_then_draft_witness :
  NoteCreate.image_url
    (NoteForm.draft
       (final_state
          (NoteForm.handleImageUpload true (Fulfilled (lit "https://cdn/x.png"))
             Sample.typed_form Sample.signed_in)))
  = Some (lit "https://cdn/x.png").
Proof.
  destruct (image_buttons_then_draft Sample.typed_form Sample.signed_in
              (lit "https://cdn/x.png")) as [Hdraft _]; [discriminate |].
  by rewrite Hdraft.
Defined.

(** X28. While an upload is out, the upload button and the submit button
    are both disabled and the upload button reads [Uploading...]; the two
    halves of the handler, run one after the other, are the handler; and
    once the request has settled, either way, the upload button is
    enabled again and the submit button follows the [loading] prop. *)
Theorem upload_in_flight (wire : Settled jsstring) (loading : bool)
    (s : NoteForm.State) (w : World) :
  let sent := NoteFormView.handleImageUpload_begin s w in
  let settled := NoteFormView.handleImageUpload_settle wire
                   (final_state sent) (final_world sent) in
  NoteFormView.upload_disabled (final_state sent) = true
  ∧ NoteFormView.submit_disabled loading (final_state sent) = true
  ∧ NoteFormView.upload_label (final_state sent) = lit "Uploading..."
  ∧ settled = NoteForm.handleImageUpload true wire s w
  ∧ NoteFormView.upload_disabled (final_state settled) = false
  ∧ NoteFormView.submit_disabled loading (final_state settled) = loading.
Proof.
  unfold NoteFormView.handleImageUpload_begin, NoteFormView.handleImageUpload_settle,
    NoteForm.handleImageUpload, Api.uploadImage, Api.request, bind,
    NoteFormView.submit_disabled.
  destruct wire as [url | e]; cbn; split_and!; try done;
    by rewrite ?orb_true_r, ?orb_false_r.
Qed.

(** ** Across handlers *)

Lemma dispatch_world_without_submit (login : jsstring → User.t → World → World)
    (e : Login.Event) (s : Login.State) (w : World) :
  (∀ wire, e ≠ Login.Submitted wire) →
  final_world (Login.dispatch login e s w) = w.
Proof.
  intros Hns. destruct e as [searchParams | wire | | v | v]; cbn [Login.dispatch].
  - apply useEffect_searchParams_world.
  - by destruct (Hns wire).
  - reflexivity.
  - reflexivity.
  - reflexivity.
Qed.

(** X29. On the login screen only a submit reaches outside the component:
    whatever is typed, however often the mode is switched and whatever
    search parameters arrive, no request is sent, storage and location
    are untouched and no dialog is shown. *)
Theorem login_screen_quiet_without_submit
    (login : jsstring → User.t → World → World)
    (events : list Login.Event) (s : Login.State) (w : World) :
  Forall (fun e => ∀ wire, e ≠ Login.Submitted wire) events →
  final_world (Login.run login events s w) = w.
Proof.
  intros Hquiet. revert s. induction Hquiet as [| e events He _ IH]; intros s;
    [reflexivity |].
  cbn [Login.run]. unfold bind.
  pose proof (dispatch_world_without_submit login e s w He) as Hw.
  destruct (Login.dispatch login e s w) as [[[] s'] w']. cbn in Hw. subst w'.
  apply IH.
Qed.

Lemma login_screen_quiet_without_submit_witness :
  final_world
    (Login.run (fun token user => set_session (Some (token, user)))
       [Login.SearchParamsChanged [(lit "error", lit "expired")];
        Login.ModeToggled; Login.EmailTyped (lit "alice@example.com");
        Login.PasswordTyped (lit "secret")]
       Login.initial Sample.signed_out)
  = Sample.signed_out.
Proof.
  apply (login_screen_quiet_without_submit
           (fun token user => set_session (Some (token, user)))).
  repeat constructor; intros wire; discriminate.
Defined.

(** X30. The token is read when a request leaves: once a 401 has gone
    through the adapter, the next request, to whatever endpoint, carries
    no [Authorization] header (unless the call brings its own). *)
Theorem after_401_next_request_unauthenticated {S A : Type}
    (ep ep' : Endpoint) (h h' : gmap jsstring jsstring)
    (e : AxiosError.t) (s : S) (w : World) :
  AxiosError.is_401 e = true →
  h' !! lit "Authorization" = None →
  let w1 := final_world (Api.request (A := A) ep h (Rejected e) s w) in
  ∃ req,
    requests (final_world (Api.send ep' h' s w1)) = requests w1 ++ [req]
    ∧ endpoint req = ep'
    ∧ headers req !! lit "Authorization" = None.
Proof.
  intros He Hh' w1. rewrite send_requests. eexists.
  split_and!; [reflexivity | reflexivity |].
  cbn [headers]. rewrite request_interceptor_no_token.
  - apply lookup_union_None. split; [done |].
    unfold Api.default_headers. by apply lookup_singleton_ne.
  - left. subst w1. rewrite request_rejected.
    unfold Api.response_error_interceptor. rewrite He. cbn.
    rewrite lookup_delete_ne by done. apply lookup_delete_eq.
Qed.

Lemma after_401_next_request_unauthenticated_witness :
  ∃ req,
    requests
      (final_world
         (Api.send (S := unit) GET_notes ∅ tt
            (final_world
               (Api.request (S := unit) (A := unit) (DELETE_note 7) ∅
                  (Rejected (Sample.failed_with 401)) tt Sample.signed_in))))
    = requests
        (final_world
           (Api.request (S := unit) (A := unit) (DELETE_note 7) ∅
              (Rejected (Sample.failed_with 401)) tt Sample.signed_in)) ++ [req]
    ∧ headers req !! lit "Authorization" = None.
Proof.
  destruct (after_401_next_request_unauthenticated (S := unit) (A := unit)
              (DELETE_note 7) GET_notes ∅ ∅ (Sample.failed_with 401) tt
              Sample.signed_in eq_refl (lookup_empty _))
    as (req & Hreq & _ & Hauth).
  exists req. split; [exact Hreq | exact Hauth].
Defined.
